(** * Extractive summarisation (bert.py): a shallow embedding

    The file follows [bert.py]: the Python primitives the code relies on
    (indexing, truthiness, [str.join], [str.lower], [str.strip], the [in]
    operator), the class [ModelProcessor] with its two entry points [run]
    and [run_embeddings], and the class [summarize] with [get_summary] and
    [sort_sentences].

    Collaborators that live outside the file (the sentence handler, the
    transformer wrapper, [ClusterFeatures], numpy's reductions, nltk's
    tokenizers and stop-word list) are Section variables.

    The word-frequency table and the sentence scores of [get_summary] are
    embedded over any arithmetic ([Frequencies]), with IEEE doubles as one
    instance ([Doubles]). The selection loop that follows them is embedded
    over the rationals [Q] ([Summarize]): what is proved of it for every
    input holds whatever the scores are, and the documents it is run on
    have scores in the same order in doubles. *)

From Stdlib Require Import List String Ascii Bool Arith ZArith QArith Lia.
From Stdlib Require Import Sorting.Sorted Sorting.Permutation Sorting.Mergesort.
From Stdlib Require Import Floats.PrimFloat Numbers.Cyclic.Int63.Uint63.
Import ListNotations.

Local Open Scope string_scope.
Local Open Scope list_scope.
Local Open Scope Z_scope.

(* ================================================================== *)
(** ** Python primitives *)
(* ================================================================== *)

Module Py.

(** The exceptions that can leave the modelled code. [External] stands for
    whatever a collaborator raises. *)
Inductive exn : Type :=
| AssertionError (msg : string)
| IndexError
| KeyError (key : string)
| ValueError
| ZeroDivisionError
| External (what : string).

Inductive result (A : Type) : Type :=
| Ok (a : A)
| Raise (e : exn).
Arguments Ok {A} a.
Arguments Raise {A} e.

(** A state-and-exception monad: a computation reads and updates a state
    [St] (the world of the collaborators, a trace, the standard output) and
    either returns or raises. *)
Definition M (St A : Type) : Type := St -> result A * St.

Definition ret {St A} (a : A) : M St A := fun s => (Ok a, s).

Definition raise {St A} (e : exn) : M St A := fun s => (Raise e, s).

Definition bind {St A B} (m : M St A) (k : A -> M St B) : M St B :=
  fun s => match m s with
           | (Ok a, s') => k a s'
           | (Raise e, s') => (Raise e, s')
           end.

Definition lift {St A} (r : result A) : M St A := fun s => (r, s).

Definition modify {St} (f : St -> St) : M St unit := fun s => (Ok tt, f s).

Notation "x <- m ;; k" := (bind m (fun x => k))
  (at level 61, m at next level, right associativity).
Notation "m ;;; k" := (bind m (fun _ => k))
  (at level 61, right associativity).

(** The same sequencing for code that touches no state. *)
Definition and_then {A B} (r : result A) (k : A -> result B) : result B :=
  match r with
  | Ok a => k a
  | Raise e => Raise e
  end.

Notation "x <~ r ;; k" := (and_then r (fun x => k))
  (at level 61, r at next level, right associativity).

(** [len(l)] *)
Definition len {A} (l : list A) : Z := Z.of_nat (List.length l).

(** [l[j]] for a Python list or an ndarray row: a negative index counts
    from the end, anything out of range raises [IndexError]. *)
Definition getitem {A} (l : list A) (j : Z) : result A :=
  let k := if j <? 0 then j + len l else j in
  if k <? 0 then Raise IndexError
  else match nth_error l (Z.to_nat k) with
       | Some a => Ok a
       | None => Raise IndexError
       end.

(** [[f(j) for j in l]] where [f] may raise: the first exception wins. *)
Fixpoint comprehension {A B} (f : A -> result B) (l : list A) : result (list B) :=
  match l with
  | [] => Ok []
  | a :: l' =>
      match f a with
      | Raise e => Raise e
      | Ok b => match comprehension f l' with
                | Raise e => Raise e
                | Ok bs => Ok (b :: bs)
                end
      end
  end.

(** Truth value of a list: [if l:] holds when [l] is not empty. *)
Definition truthy {A} (l : list A) : bool :=
  match l with [] => false | _ :: _ => true end.

(** [sep.join(l)] *)
Definition join (sep : string) (l : list string) : string := String.concat sep l.

(** [x in l] for a list of strings. *)
Definition contains (l : list string) (x : string) : bool :=
  existsb (String.eqb x) l.

(** [needle in hay] for two strings: substring containment. *)
Fixpoint substring_of (needle hay : string) : bool :=
  String.prefix needle hay ||
  match hay with
  | EmptyString => false
  | String _ hay' => substring_of needle hay'
  end.

(** A [dict] with string keys. Python keeps the insertion order, and
    assigning to a key that is present keeps its position. *)
Definition dict (V : Type) : Type := list (string * V).

Definition keys {V} (d : dict V) : list string := map fst d.

(** [k in d] *)
Definition dict_mem {V} (d : dict V) (k : string) : bool :=
  existsb (fun kv => String.eqb k (fst kv)) d.

(** [d[k]] *)
Fixpoint dict_get {V} (d : dict V) (k : string) : result V :=
  match d with
  | [] => Raise (KeyError k)
  | (k', v) :: d' => if String.eqb k k' then Ok v else dict_get d' k
  end.

(** [d[k] = v] *)
Fixpoint dict_set {V} (d : dict V) (k : string) (v : V) : dict V :=
  match d with
  | [] => [(k, v)]
  | (k', v') :: d' =>
      if String.eqb k k' then (k', v) :: d' else (k', v') :: dict_set d' k v
  end.

(** [s.lower()], on the ASCII letters. *)
Definition lower_ascii (c : ascii) : ascii :=
  let n := nat_of_ascii c in
  if (65 <=? n)%nat && (n <=? 90)%nat then ascii_of_nat (n + 32) else c.

Fixpoint lower (s : string) : string :=
  match s with
  | EmptyString => EmptyString
  | String c s' => String (lower_ascii c) (lower s')
  end.

(** [s.strip(chars)]: drops the leading and the trailing characters that
    belong to [chars]. *)
Fixpoint lstrip (chars : list ascii) (s : list ascii) : list ascii :=
  match s with
  | [] => []
  | c :: s' => if existsb (Ascii.eqb c) chars then lstrip chars s' else s
  end.

Definition strip (chars : list ascii) (s : string) : string :=
  string_of_list_ascii
    (rev (lstrip chars (rev (lstrip chars (list_ascii_of_string s))))).

(** [string.punctuation]: the 32 ASCII punctuation characters, by code:
    33..47, 58..64, 91..96 and 123..126. *)
Definition punctuation : list ascii :=
  map ascii_of_nat
    (seq 33 15 ++ seq 58 7 ++ seq 91 6 ++ seq 123 4)%nat.

End Py.

Import Py.

(* ================================================================== *)
(** ** class ModelProcessor *)
(* ================================================================== *)

Module ModelProcessor.

(** What the processor asks of its collaborators, in the order it asks. *)
Inductive event : Type :=
| EvSegment     (* the sentence handler split and filtered the body *)
| EvEmbed       (* the transformer produced the hidden states *)
| EvCluster     (* ClusterFeatures(...).cluster(...) ran *)
| EvAggregate.  (* a numpy reduction ran on the selected embeddings *)

Definition is_model_computation (e : event) : bool :=
  match e with
  | EvEmbed | EvCluster => true
  | _ => false
  end.

(** What [run_embeddings] returns: [None], the matrix of the selected
    embeddings, or that matrix reduced along axis 0. *)
Inductive embeddings_result (Vec : Type) : Type :=
| NoResult
| Embeddings (rows : list Vec)
| Aggregated (v : Vec).
Arguments NoResult {Vec}.
Arguments Embeddings {Vec} rows.
Arguments Aggregated {Vec} v.

Section Processor.

(** The state of the collaborators (model weights, numpy's global random
    generator, ...) and the type of one row of hidden states. *)
Variable World : Type.
Variable Vec : Type.

Definition state : Type := (World * list event)%type.
Definition Run (A : Type) : Type := M state A.

(** A collaborator call: it is recorded in the trace, then run on the
    world. *)
Definition call {A} (ev : event) (f : World -> result A * World) : Run A :=
  fun s => let '(w, tr) := s in
           let '(r, w') := f w in
           (r, (w', tr ++ [ev])).

(** [ClusterFeatures(hidden, algorithm, random_state=...).cluster(ratio,
    num_sentences)], numpy's reductions along axis 0 and
    [np.random.seed]. A reduction can raise: [np.max] and [np.min] raise
    [ValueError] on an empty selection. *)
Variable ClusterFeatures_cluster :
  list Vec -> string -> Z -> Q -> option Z -> World -> result (list Z) * World.
Variables np_mean np_min np_median np_max : list Vec -> result Vec.
Variable np_random_seed : Z -> World -> World.

(** The fields [__init__] stores in [self]. *)
Record t : Type := Build {
  model : list string -> Z -> string -> World -> result (list Vec) * World;
  hidden : Z;
  reduce_option : string;
  sentence_handler : string -> Z -> Z -> World -> result (list string) * World;
  random_state : Z
}.

Definition aggregate_map : dict (list Vec -> result Vec) :=
  [("mean", np_mean); ("min", np_min); ("median", np_median); ("max", np_max)].

Definition init
    (bert_parent : list string -> Z -> string -> World -> result (list Vec) * World)
    (hidden : Z) (reduce_option : string)
    (sentence_handler : string -> Z -> Z -> World -> result (list string) * World)
    (random_state : Z) : Run t :=
  modify (fun s => (np_random_seed random_state (fst s), snd s)) ;;;
  ret (Build bert_parent hidden reduce_option sentence_handler random_state).

(** Lines 103-109: the in-place update of [hidden_args] under
    [use_first]. *)
Definition force_first (use_first : bool) (hidden_args : list Z) : list Z :=
  if use_first then
    match hidden_args with
    | [] => hidden_args ++ [0]
    | first :: _ => if negb (first =? 0) then 0 :: hidden_args else hidden_args
    end
  else hidden_args.

Definition cluster_runner (self : t) (content : list string) (ratio : Q)
    (algorithm : string) (use_first : bool) (num_sentences : option Z)
    : Run (list string * list Vec) :=
  let num_sentences :=
    match num_sentences with
    | Some n => Some (if use_first then n else n)
    | None => None
    end in
  hidden <- call EvEmbed (model self content (hidden self) (reduce_option self)) ;;
  hidden_args <- call EvCluster
    (ClusterFeatures_cluster hidden algorithm (random_state self) ratio num_sentences) ;;
  let hidden_args := force_first use_first hidden_args in
  sentences <- lift (comprehension (getitem content) hidden_args) ;;
  embeddings <- lift (comprehension (getitem hidden) hidden_args) ;;
  ret (sentences, embeddings).

Definition run_clusters (self : t) (content : list string) (ratio : Q)
    (algorithm : string) (use_first : bool) (num_sentences : option Z)
    : Run (list string) :=
  r <- cluster_runner self content ratio algorithm use_first num_sentences ;;
  ret (fst r).

Definition retrieve_summarized_embeddings (self : t) (content : list string)
    (ratio : Q) (algorithm : string) (use_first : bool) (num_sentences : option Z)
    : Run (list Vec) :=
  r <- cluster_runner self content ratio algorithm use_first num_sentences ;;
  ret (snd r).

Definition aggregate_names : list string := ["mean"; "median"; "max"; "min"].

Definition aggregate_message : string :=
  "aggregate must be mean, min, max, or median".

Definition run_embeddings (self : t) (body : string) (ratio : Q)
    (min_length max_length : Z) (use_first : bool) (algorithm : string)
    (num_sentences : option Z) (aggregate : option string)
    : Run (embeddings_result Vec) :=
  sentences <- call EvSegment (sentence_handler self body min_length max_length) ;;
  if truthy sentences then
    embeddings <- retrieve_summarized_embeddings self sentences ratio algorithm
                    use_first num_sentences ;;
    match aggregate with
    | Some name =>
        if contains aggregate_names name then
          reduce <- lift (dict_get aggregate_map name) ;;
          reduced <- call EvAggregate (fun w => (reduce embeddings, w)) ;;
          ret (Aggregated reduced)
        else raise (AssertionError aggregate_message)
    | None => ret (Embeddings embeddings)
    end
  else ret NoResult.

Definition run (self : t) (body : string) (ratio : Q)
    (min_length max_length : Z) (use_first : bool) (algorithm : string)
    (num_sentences : option Z) : Run string :=
  sentences <- call EvSegment (sentence_handler self body min_length max_length) ;;
  sentences <- (if truthy sentences
                then run_clusters self sentences ratio algorithm use_first num_sentences
                else ret sentences) ;;
  ret (join " " sentences).

(** The two list comprehensions of lines 111-112, on a given index
    list. *)
Definition gather (content : list string) (hidden : list Vec)
    (hidden_args : list Z) : result (list string * list Vec) :=
  sentences <~ comprehension (getitem content) hidden_args ;;
  embeddings <~ comprehension (getitem hidden) hidden_args ;;
  Ok (sentences, embeddings).

End Processor.

Arguments Build {World Vec}.
Arguments model {World Vec}.
Arguments hidden {World Vec}.
Arguments reduce_option {World Vec}.
Arguments sentence_handler {World Vec}.
Arguments random_state {World Vec}.
Arguments call {World A}.
Arguments init {World Vec}.
Arguments cluster_runner {World Vec}.
Arguments run_clusters {World Vec}.
Arguments retrieve_summarized_embeddings {World Vec}.
Arguments run_embeddings {World Vec}.
Arguments run {World Vec}.
Arguments gather {Vec}.
Arguments aggregate_map {Vec}.

(** An outcome of [run_embeddings] that is the configuration error, raised
    before any embedding was extracted or clustered. *)
Definition fails_fast {World A} (outcome : result A * state World) : Prop :=
  (exists msg, fst outcome = Raise (AssertionError msg)) /\
  existsb is_model_computation (snd (snd outcome)) = false.

(** An index selection in document order: strictly ascending, no index
    twice. *)
Definition ordered_selection (selected : list Z) : Prop :=
  StronglySorted Z.lt selected /\ NoDup selected.

End ModelProcessor.

(* ================================================================== *)
(** ** class summarize *)
(* ================================================================== *)

Module Summarize.

(** What the code prints: the warning of [get_summary] and the index list
    of [sort_sentences]. *)
Inductive printed : Type :=
| PrintStr (s : string)
| PrintList (l : list nat).

Definition Out (A : Type) : Type := M (list printed) A.

Definition print (p : printed) : Out unit := modify (fun out => out ++ [p]).

Definition warning_message : string :=
  "Error, number of requested sentences exceeds number of sentences inputted".

Definition Qlt_bool (x y : Q) : bool := negb (Qle_bool y x).

(** [max(enumerate(tracker), key=operator.itemgetter(1))]: the first pair
    whose value is maximal; [max] of an empty sequence raises. *)
Fixpoint max_from (best : nat * Q) (i : nat) (l : list Q) : nat * Q :=
  match l with
  | [] => best
  | v :: l' => max_from (if Qlt_bool (snd best) v then (i, v) else best) (S i) l'
  end.

Definition max_enumerate (tracker : list Q) : result (nat * Q) :=
  match tracker with
  | [] => Raise ValueError
  | v :: l => Ok (max_from (0%nat, v) 1%nat l)
  end.

(** [l.remove(x)]: drops the first element equal to [x]. *)
Fixpoint list_remove (x : Q) (l : list Q) : result (list Q) :=
  match l with
  | [] => Raise ValueError
  | y :: l' =>
      if Qeq_bool y x then Ok l'
      else l'' <~ list_remove x l' ;; Ok (y :: l'')
  end.

(** [l.index(x)] *)
Fixpoint list_index (l : list string) (x : string) : result nat :=
  match l with
  | [] => Raise ValueError
  | y :: l' =>
      if String.eqb y x then Ok 0%nat
      else i <~ list_index l' x ;; Ok (S i)
  end.

(** [x / n] with a float [x] and an int [n]. *)
Definition truediv (x : Q) (n : Z) : result Q :=
  if n =? 0 then Raise ZeroDivisionError else Ok (x / inject_Z n)%Q.

(** [w in punc] where [punc = set(string.punctuation)]: a set of
    one-character strings. *)
Definition in_punc (w : string) : bool :=
  match w with
  | String c EmptyString => existsb (Ascii.eqb c) punctuation
  | _ => false
  end.

Definition tab_newline : list ascii := [ascii_of_nat 9; ascii_of_nat 10].

Section Summarizer.

(** nltk: [sent_tokenize], [word_tokenize] and
    [stopwords.words("english")]. *)
Variable sent_tokenize : string -> list string.
Variable word_tokenize : string -> list string.
Variable stopwords_english : list string.

(** Lines 334-343. ([sentences_chopped] is computed and never used.) *)
Definition filtered_words (input : string) : list string :=
  let s := strip tab_newline input in
  let words_chopped := word_tokenize (lower s) in
  let stop_words := stopwords_english in
  filter (fun w => negb (contains stop_words w) && negb (in_punc w))
         words_chopped.

(** Lines 347-351. *)
Fixpoint count_words (filtered : list string) (word_frequency : dict Q)
    : result (dict Q) :=
  match filtered with
  | [] => Ok word_frequency
  | w :: rest =>
      if dict_mem word_frequency w then
        v <~ dict_get word_frequency w ;;
        count_words rest (dict_set word_frequency w (v + 1)%Q)
      else count_words rest (dict_set word_frequency w 1%Q)
  end.

(** Lines 352-353: the loop runs over the keys of the table. *)
Fixpoint normalize_loop (words : list string) (word_frequency : dict Q)
    (total_words : Z) : result (dict Q) :=
  match words with
  | [] => Ok word_frequency
  | word :: rest =>
      v <~ dict_get word_frequency word ;;
      q <~ truediv v total_words ;;
      normalize_loop rest (dict_set word_frequency word q) total_words
  end.

Definition normalize (word_frequency : dict Q) (total_words : Z)
    : result (dict Q) :=
  normalize_loop (keys word_frequency) word_frequency total_words.

(** Lines 354-358: [tracker[i]] starts at 0.0 and gains the value of every
    key of the table that is a substring of sentence [i]. *)
Fixpoint score_loop (words : list string) (word_frequency : dict Q)
    (sentence : string) (acc : Q) : result Q :=
  match words with
  | [] => Ok acc
  | j :: rest =>
      if substring_of j sentence then
        v <~ dict_get word_frequency j ;;
        score_loop rest word_frequency sentence (acc + v)%Q
      else score_loop rest word_frequency sentence acc
  end.

Definition scores (word_frequency : dict Q) (sentences_original : list string)
    : result (list Q) :=
  comprehension
    (fun sentence => score_loop (keys word_frequency) word_frequency sentence 0%Q)
    sentences_original.

(** Lines 359-365: [rounds] is what is left of [range(0, len(tracker))],
    fixed before the first iteration. *)
Fixpoint select_loop (rounds : nat) (sentences_original : list string)
    (max_sentences : Z) (tracker : list Q) (output_sentence : list string)
    : result (list string) :=
  match rounds with
  | O => Ok output_sentence
  | S rounds' =>
      iv <~ max_enumerate tracker ;;
      let index := fst iv in
      output_sentence <~
        (if len output_sentence + 1 <=? max_sentences then
           s <~ getitem sentences_original (Z.of_nat index) ;;
           Ok (if negb (contains output_sentence s)
               then output_sentence ++ [s] else output_sentence)
         else Ok output_sentence) ;;
      if len output_sentence >? max_sentences then Ok output_sentence
      else
        x <~ getitem tracker (Z.of_nat index) ;;
        tracker <~ list_remove x tracker ;;
        select_loop rounds' sentences_original max_sentences tracker
                    output_sentence
  end.

(** Lines 371-373. *)
Fixpoint positions (original output : list string) : result (list nat) :=
  match output with
  | [] => Ok []
  | o :: rest =>
      if contains original o then
        i <~ list_index original o ;;
        others <~ positions original rest ;;
        Ok (i :: others)
      else positions original rest
  end.

Definition sort_sentences (original output : list string)
    : Out (list string) :=
  sorted_sent_arr <- lift (positions original output) ;;
  let sorted_sent_arr := NatSort.sort sorted_sent_arr in
  sorted_output <- lift (comprehension
                           (fun i => getitem original (Z.of_nat i))
                           sorted_sent_arr) ;;
  print (PrintList sorted_sent_arr) ;;;
  ret sorted_output.

Definition get_summary (input : string) (max_sentences : Z)
    : Out (list string) :=
  let sentences_original := sent_tokenize input in
  (if max_sentences >? len sentences_original
   then print (PrintStr warning_message) else ret tt) ;;;
  let filtered := filtered_words input in
  let total_words := len filtered in
  word_frequency <- lift (count_words filtered []) ;;
  word_frequency <- lift (normalize word_frequency total_words) ;;
  tracker <- lift (scores word_frequency sentences_original) ;;
  output_sentence <- lift (select_loop (List.length tracker) sentences_original
                                       max_sentences tracker []) ;;
  sort_sentences sentences_original output_sentence.

(** The table and the scores [get_summary] works with, and its last two
    steps, named so that they can be spoken about. *)
Definition word_frequency_table (input : string) : result (dict Q) :=
  word_frequency <~ count_words (filtered_words input) [] ;;
  normalize word_frequency (len (filtered_words input)).

Definition tracker_of (input : string) : result (list Q) :=
  word_frequency <~ word_frequency_table input ;;
  scores word_frequency (sent_tokenize input).

Definition select_and_sort (sentences_original : list string)
    (max_sentences : Z) (tracker : list Q) : Out (list string) :=
  output_sentence <- lift (select_loop (List.length tracker) sentences_original
                                       max_sentences tracker []) ;;
  sort_sentences sentences_original output_sentence.

End Summarizer.

(** ** The summarizer as the specification words it *)

Definition Qsum (l : list Q) : Q := fold_right Qplus 0%Q l.

(** The value a table holds for a word, 0 when the word is not a key. *)
Definition value_of (d : dict Q) (w : string) : Q :=
  match dict_get d w with Ok v => v | Raise _ => 0%Q end.

(** One entry of the table after line 353. *)
Definition divide_entry (total_words : Z) (kv : string * Q) : string * Q :=
  (fst kv, (snd kv / inject_Z total_words)%Q).

(** What the selection loop keeps true of [output_sentence]: distinct
    sentences of the input, no more than asked for. *)
Definition selection_ok (sentences : list string) (max_sentences : Z)
    (output : list string) : Prop :=
  NoDup output /\ incl output sentences /\ len output <= Z.max 0 max_sentences.

(** Greedy selection on score entries that keep their sentence index: the
    first entry of highest score is picked and removed, until
    [max_sentences] distinct sentences are collected or no entry is
    left. *)
Fixpoint best_entry (best : nat * Q) (entries : list (nat * Q)) : nat * Q :=
  match entries with
  | [] => best
  | e :: entries' =>
      best_entry (if Qlt_bool (snd best) (snd e) then e else best) entries'
  end.

Fixpoint greedy (rounds : nat) (sentences : list string) (max_sentences : Z)
    (entries : list (nat * Q)) (picked : list nat) : list nat :=
  match rounds with
  | O => picked
  | S rounds' =>
      if len picked >=? max_sentences then picked
      else match entries with
           | [] => picked
           | e :: entries' =>
               let i := fst (best_entry e entries') in
               let taken := map (fun p => nth p sentences EmptyString) picked in
               greedy rounds' sentences max_sentences
                      (filter (fun e' => negb (Nat.eqb (fst e') i)) entries)
                      (if contains taken (nth i sentences EmptyString)
                       then picked else picked ++ [i])
           end
  end.

Definition greedy_summary (sentences : list string) (max_sentences : Z)
    (tracker : list Q) : list string :=
  let entries := combine (seq 0 (List.length tracker)) tracker in
  map (fun p => nth p sentences EmptyString)
      (NatSort.sort (greedy (List.length tracker) sentences max_sentences entries [])).

End Summarize.

(* ================================================================== *)
(** ** The table and the scores, in any arithmetic *)
(* ================================================================== *)

(** Lines 334-358 of [get_summary] once more, for any type of numbers
    with the four operations the code uses on floats, and any [str.lower].
    [Summarize] has the same lines at the rationals with [Py.lower]. *)
Module Frequencies.

Import Summarize.

Section Arithmetic.

(** The floats of the code: [0.0], [1.0], [x + y] and [x / n] for an int
    [n] other than 0. *)
Variable F : Type.
Variables zero one : F.
Variable add : F -> F -> F.
Variable div_int : F -> Z -> F.

(** [str.lower], and nltk as in [Summarize]. *)
Variable lower : string -> string.
Variable sent_tokenize : string -> list string.
Variable word_tokenize : string -> list string.
Variable stopwords_english : list string.

(** Lines 334-343. *)
Definition filtered_words (input : string) : list string :=
  let s := strip tab_newline input in
  let words_chopped := word_tokenize (lower s) in
  let stop_words := stopwords_english in
  filter (fun w => negb (contains stop_words w) && negb (in_punc w))
         words_chopped.

(** Lines 347-351. *)
Fixpoint count_words (filtered : list string) (word_frequency : dict F)
    : result (dict F) :=
  match filtered with
  | [] => Ok word_frequency
  | w :: rest =>
      if dict_mem word_frequency w then
        v <~ dict_get word_frequency w ;;
        count_words rest (dict_set word_frequency w (add v one))
      else count_words rest (dict_set word_frequency w one)
  end.

(** [x / n] *)
Definition truediv (x : F) (n : Z) : result F :=
  if n =? 0 then Raise ZeroDivisionError else Ok (div_int x n).

(** Lines 352-353. *)
Fixpoint normalize_loop (words : list string) (word_frequency : dict F)
    (total_words : Z) : result (dict F) :=
  match words with
  | [] => Ok word_frequency
  | word :: rest =>
      v <~ dict_get word_frequency word ;;
      q <~ truediv v total_words ;;
      normalize_loop rest (dict_set word_frequency word q) total_words
  end.

Definition normalize (word_frequency : dict F) (total_words : Z)
    : result (dict F) :=
  normalize_loop (keys word_frequency) word_frequency total_words.

(** Lines 354-358. *)
Fixpoint score_loop (words : list string) (word_frequency : dict F)
    (sentence : string) (acc : F) : result F :=
  match words with
  | [] => Ok acc
  | j :: rest =>
      if substring_of j sentence then
        v <~ dict_get word_frequency j ;;
        score_loop rest word_frequency sentence (add acc v)
      else score_loop rest word_frequency sentence acc
  end.

Definition scores (word_frequency : dict F) (sentences_original : list string)
    : result (list F) :=
  comprehension
    (fun sentence => score_loop (keys word_frequency) word_frequency sentence zero)
    sentences_original.

Definition word_frequency_table (input : string) : result (dict F) :=
  word_frequency <~ count_words (filtered_words input) [] ;;
  normalize word_frequency (len (filtered_words input)).

Definition tracker_of (input : string) : result (list F) :=
  word_frequency <~ word_frequency_table input ;;
  scores word_frequency (sent_tokenize input).

(** *** The same, as the specification words it *)

(** The count the code holds for a word met [n] times: [1.0] at the first
    occurrence, [+ 1.0] at each later one. *)
Fixpoint counted (n : nat) : F :=
  match n with
  | O => zero
  | S m => match m with
           | O => one
           | S _ => add (counted m) one
           end
  end.

(** The distinct words of a list, in the order of their first
    occurrence, after those seen before. *)
Fixpoint distinct_from (seen words : list string) : list string :=
  match words with
  | [] => seen
  | w :: rest =>
      distinct_from (if contains seen w then seen else seen ++ [w]) rest
  end.

Definition distinct (words : list string) : list string :=
  distinct_from [] words.

(** The sum of a list of numbers as the code takes it: from [0.0], left to
    right. *)
Definition sum_of (values : list F) : F := fold_left add values zero.

(** The values of the table entries whose word is a substring of the
    sentence, in the order of the table. *)
Definition values_in (table : dict F) (sentence : string) : list F :=
  map snd (filter (fun kv => substring_of (fst kv) sentence) table).

End Arithmetic.

End Frequencies.

(* ================================================================== *)
(** ** Reference collaborators *)
(* ================================================================== *)

(** Executable stand-ins for the collaborators, used to run the code on
    concrete inputs. On plain text (words separated by single blanks,
    sentences closed by a full stop, a question or an exclamation mark)
    they split as nltk does. *)
Module Reference.

Definition is_space (c : ascii) : bool :=
  existsb (Ascii.eqb c) [" "%char; ascii_of_nat 9; ascii_of_nat 10].

Definition is_terminator (c : ascii) : bool :=
  existsb (Ascii.eqb c) ["."%char; "!"%char; "?"%char].

Definition flush (cur : list ascii) (k : list string) : list string :=
  match cur with
  | [] => k
  | _ :: _ => string_of_list_ascii (rev cur) :: k
  end.

(** A sentence ends at a terminator that is followed by white space or by
    the end of the text. *)
Fixpoint split_sentences (cur : list ascii) (s : list ascii) : list string :=
  match s with
  | [] => flush cur []
  | c :: s' =>
      if is_space c && match cur with [] => true | _ => false end
      then split_sentences cur s'
      else if is_terminator c && match s' with [] => true | d :: _ => is_space d end
      then flush (c :: cur) (split_sentences [] s')
      else split_sentences (c :: cur) s'
  end.

Definition sent_tokenize (text : string) : list string :=
  split_sentences [] (list_ascii_of_string text).

(** Words are maximal runs of characters that are neither white space nor
    punctuation; every punctuation character is a token of its own. *)
Fixpoint split_words (cur : list ascii) (s : list ascii) : list string :=
  match s with
  | [] => flush cur []
  | c :: s' =>
      if is_space c then flush cur (split_words [] s')
      else if existsb (Ascii.eqb c) punctuation
      then flush cur (String c EmptyString :: split_words [] s')
      else split_words (c :: cur) s'
  end.

Definition word_tokenize (text : string) : list string :=
  split_words [] (list_ascii_of_string text).

(** Some of the words of [stopwords.words("english")]. *)
Definition stopwords_english : list string :=
  ["i"; "me"; "my"; "we"; "our"; "you"; "he"; "she"; "it"; "they"; "them";
   "what"; "which"; "who"; "this"; "that"; "these"; "those"; "am"; "is";
   "are"; "was"; "were"; "be"; "been"; "have"; "has"; "had"; "do"; "does";
   "did"; "a"; "an"; "the"; "and"; "but"; "if"; "or"; "because"; "as";
   "of"; "at"; "by"; "for"; "with"; "to"; "from"; "in"; "out"; "on"; "off";
   "so"; "than"; "too"; "very"; "can"; "will"; "just"; "not"; "no"].

Definition get_summary (input : string) (max_sentences : Z)
    : result (list string) * list Summarize.printed :=
  Summarize.get_summary sent_tokenize word_tokenize stopwords_english
                        input max_sentences [].

Definition tracker_of (input : string) : result (list Q) :=
  Summarize.tracker_of sent_tokenize word_tokenize stopwords_english input.

(** A processor without hidden state: sentences are kept when their
    length lies strictly between the bounds, the hidden state of a
    sentence is its length, and the clustering step answers [answer]. *)
Definition handler (body : string) (min_length max_length : Z) (w : unit)
    : result (list string) * unit :=
  (Ok (filter (fun c => let n := Z.of_nat (String.length c) in
                        (min_length <? n) && (n <? max_length))
              (sent_tokenize body)), w).

Definition lengths (content : list string) (hidden : Z) (reduce_option : string)
    (w : unit) : result (list Z) * unit :=
  (Ok (map (fun c => Z.of_nat (String.length c)) content), w).

Definition answers (answer : list Z) (hidden : list Z) (algorithm : string)
    (random_state : Z) (ratio : Q) (num_sentences : option Z) (w : unit)
    : result (list Z) * unit :=
  (Ok answer, w).

Definition total (rows : list Z) : result Z := Ok (fold_right Z.add 0 rows).
Definition largest (rows : list Z) : result Z :=
  match rows with
  | [] => Raise ValueError
  | r :: rows' => Ok (fold_right Z.max r rows')
  end.
Definition smallest (rows : list Z) : result Z :=
  match rows with
  | [] => Raise ValueError
  | r :: rows' => Ok (fold_right Z.min r rows')
  end.

Definition processor : ModelProcessor.t unit Z :=
  ModelProcessor.Build lengths (-2) "mean" handler 12345.

Definition run_embeddings (answer : list Z) (body : string) (num_sentences : option Z)
    (aggregate : option string) :=
  ModelProcessor.run_embeddings (answers answer) total smallest total largest
    processor body (1 # 5)%Q 10 100 true "kmeans" num_sentences aggregate
    (tt, []).

Definition cluster_runner (answer : list Z) (content : list string)
    (use_first : bool) :=
  ModelProcessor.cluster_runner (answers answer) processor content (1 # 5)%Q
    "kmeans" use_first None (tt, []).

Definition two_sentences : string :=
  "Sentence one is long enough to pass the filter here. Sentence two also passes the filter nicely.".

Definition cats : string := "The cat sat. The cat ran. The dog slept.".

Definition abc : list string := ["a"; "b"; "c"].

Definition cat_dog_cat : string :=
  "The cat sat still. The dog ran. The cat slept.".

End Reference.

(* ================================================================== *)
(** ** The table and the scores in IEEE doubles *)
(* ================================================================== *)

(** Python's floats are IEEE doubles, and so are Rocq's primitive floats.
    An int divisor is converted to the nearest double first, as Python
    does; the conversion is exact below 2^53, and is that of Python for a
    divisor below 2^63. *)
Module Doubles.

Definition div_int (x : float) (n : Z) : float :=
  PrimFloat.div x (PrimFloat.of_uint63 (Uint63.of_Z n)).

Definition word_frequency_table (input : string) : result (dict float) :=
  Frequencies.word_frequency_table float 1%float PrimFloat.add div_int lower
    Reference.word_tokenize Reference.stopwords_english input.

Definition tracker_of (input : string) : result (list float) :=
  Frequencies.tracker_of float 0%float 1%float PrimFloat.add div_int lower
    Reference.sent_tokenize Reference.word_tokenize Reference.stopwords_english
    input.

(** Ten filtered words: "ant" three times, "cow" twice, the others
    once. *)
Definition ant_bee_cow : string :=
  "An ant ant ant. The bee cow cow. The dog elk. The fox gnu.".

End Doubles.

(* ================================================================== *)
(** ** Constructors, [__call__] and [bert] *)
(* ================================================================== *)

Module Entry.

Import ModelProcessor.

(** Iterating over a [str] yields its characters, each a string of
    length one. *)
Fixpoint characters (s : string) : list string :=
  match s with
  | EmptyString => []
  | String c s' => String c EmptyString :: characters s'
  end.

(** [TransformerSummarizer.MODEL_DICT] as the class statement leaves it; a
    class is written by its name. *)
Definition MODEL_DICT : dict (string * string) :=
  [("Bert", ("BertModel", "BertTokenizer"));
   ("OpenAIGPT", ("OpenAIGPTModel", "OpenAIGPTTokenizer"));
   ("GPT2", ("GPT2Model", "GPT2Tokenizer"));
   ("CTRL", ("CTRLModel", "CTRLTokenizer"));
   ("TransfoXL", ("TransfoXLModel", "TransfoXLTokenizer"));
   ("XLNet", ("XLNetModel", "XLNetTokenizer"));
   ("XLM", ("XLMModel", "XLMTokenizer"));
   ("DistilBert", ("DistilBertModel", "DistilBertTokenizer"))].

(** Lines 307-312. [defined] tells which names [from transformers import *]
    has bound. Building a pair of classes raises [NameError] when one of
    the two names is not bound; the [except] clause swallows it, and the
    assignments after it in the [try] block are not run. *)
Definition register (defined : string -> bool) (d : dict (string * string))
    : dict (string * string) :=
  if defined "RobertaModel" && defined "RobertaTokenizer" then
    let d := dict_set d "Roberta" ("RobertaModel", "RobertaTokenizer") in
    if defined "AlbertModel" && defined "AlbertTokenizer" then
      let d := dict_set d "Albert" ("AlbertModel", "AlbertTokenizer") in
      if defined "CamembertModel" && defined "CamembertTokenizer" then
        dict_set d "Camembert" ("CamembertModel", "CamembertTokenizer")
      else d
    else d
  else d.

Section Entry.

(** [Pretrained] is what [from_pretrained] returns, a model or a
    tokenizer. *)
Variables World Vec Pretrained : Type.

Definition Embedder : Type :=
  list string -> Z -> string -> World -> result (list Vec) * World.

Definition Handler : Type :=
  string -> Z -> Z -> World -> result (list string) * World.

Variable ClusterFeatures_cluster :
  list Vec -> string -> Z -> Q -> option Z -> World -> result (list Z) * World.
Variable np_random_seed : Z -> World -> World.

(** [BertParent(model, custom_model, custom_tokenizer)], the two
    [from_pretrained] class methods (the class is given by name) and the
    [SentenceHandler()] the signatures take as default. *)
Variable BertParent :
  option string -> option Pretrained -> option Pretrained ->
  World -> result Embedder * World.
Variable model_from_pretrained :
  string -> string -> bool -> World -> result Pretrained * World.
Variable tokenizer_from_pretrained :
  string -> string -> World -> result Pretrained * World.
Variable defined : string -> bool.
Variable default_sentence_handler : Handler.

(** A collaborator call that leaves no mark in the trace. *)
Definition on_world {A} (f : World -> result A * World) : Run World A :=
  fun s => let '(r, w') := f (fst s) in (r, (w', snd s)).

(** [ModelProcessor.__init__], lines 58-63, with the construction of
    [BertParent] as the call it is. *)
Definition ModelProcessor_init (model : option string)
    (custom_model custom_tokenizer : option Pretrained) (hidden : Z)
    (reduce_option : string) (sentence_handler : Handler) (random_state : Z)
    : Run World (t World Vec) :=
  modify (fun s => (np_random_seed random_state (fst s), snd s)) ;;;
  parent <- on_world (BertParent model custom_model custom_tokenizer) ;;
  ret (Build parent hidden reduce_option sentence_handler random_state).

(** [Summarizer.__init__], lines 278-280. *)
Definition Summarizer_init (model : option string)
    (custom_model custom_tokenizer : option Pretrained) (hidden : Z)
    (reduce_option : string) (sentence_handler : Handler) (random_state : Z)
    : Run World (t World Vec) :=
  ModelProcessor_init model custom_model custom_tokenizer hidden reduce_option
    sentence_handler random_state.

(** [TransformerSummarizer.__init__], lines 307-323. [MODEL_DICT] belongs
    to the class: what one construction stores in it the next one finds,
    so it is part of the state. *)
Definition Construct (A : Type) : Type :=
  M (dict (string * string) * state World) A.

Definition in_run {A} (m : Run World A) : Construct A :=
  fun s => let '(r, st) := m (snd s) in (r, (fst s, st)).

Definition TransformerSummarizer_init (transformer_type : string)
    (transformer_model_key : string) (transformer_tokenizer_key : option string)
    (hidden : Z) (reduce_option : string) (sentence_handler : Handler)
    (random_state : Z) : Construct (t World Vec) :=
  modify (fun s => (register defined (fst s), snd s)) ;;;
  classes <- (fun s => (dict_get (fst s) transformer_type, s)) ;;
  let model_clz := fst classes in
  let tokenizer_clz := snd classes in
  model <- in_run (on_world
             (model_from_pretrained model_clz transformer_model_key true)) ;;
  tokenizer <- in_run (on_world
                 (tokenizer_from_pretrained tokenizer_clz
                    (match transformer_tokenizer_key with
                     | Some key => key
                     | None => transformer_model_key
                     end))) ;;
  in_run (ModelProcessor_init None (Some model) (Some tokenizer) hidden
            reduce_option sentence_handler random_state).

(** [ModelProcessor.__call__], lines 248-250. *)
Definition call_ (self : t World Vec) (body : string) (ratio : Q)
    (min_length max_length : Z) (use_first : bool) (algorithm : string)
    (num_sentences : option Z) : Run World string :=
  run ClusterFeatures_cluster self body ratio min_length max_length use_first
      algorithm num_sentences.

(** [bert], lines 381-387: [Summarizer()] and [model(body,
    num_sentences=length)] with the defaults of the signatures, then
    [''.join] over the characters of the result. *)
Definition bert (body : string) (length : Z) : Run World string :=
  model <- Summarizer_init (Some "bert-large-uncased") None None (-2) "mean"
             default_sentence_handler 12345 ;;
  result <- call_ model body (1 # 5)%Q 40 600 true "kmeans" (Some length) ;;
  ret (join EmptyString (characters result)).

End Entry.

Arguments on_world {World A}.
Arguments ModelProcessor_init {World Vec Pretrained}.
Arguments Summarizer_init {World Vec Pretrained}.
Arguments in_run {World A}.
Arguments TransformerSummarizer_init {World Vec Pretrained}.
Arguments call_ {World Vec}.
Arguments bert {World Vec Pretrained}.

End Entry.

(** Stand-ins for the collaborators of the constructors, and collaborators
    that raise. *)
Module EntryReference.

Definition parent (model : option string) (custom_model custom_tokenizer : option string)
    (w : unit) : result (Entry.Embedder unit Z) * unit :=
  (Ok Reference.lengths, w).

Definition load_model (clz key : string) (output_hidden_states : bool) (w : unit)
    : result string * unit :=
  (Ok (String.append clz (String.append ":" key)), w).

Definition load_tokenizer (clz key : string) (w : unit) : result string * unit :=
  (Ok (String.append clz (String.append ":" key)), w).

Definition seed (random_state : Z) (w : unit) : unit := w.

Definition nothing_defined (name : string) : bool := false.

Definition only_albert (name : string) : bool :=
  String.eqb name "AlbertModel" || String.eqb name "AlbertTokenizer".

Definition bert (answer : list Z) (body : string) (length : Z) :=
  Entry.bert (Reference.answers answer) seed parent Reference.handler body length
    (tt, []).

Definition TransformerSummarizer_init (defined : string -> bool)
    (transformer_type : string) :=
  Entry.TransformerSummarizer_init (Vec := Z) seed parent load_model load_tokenizer
    defined transformer_type "bert-base-uncased" None (-2) "mean"
    Reference.handler 12345 (Entry.MODEL_DICT, (tt, [])).

(** A sentence handler, a transformer and a clustering step that raise. *)
Definition broken_handler (body : string) (min_length max_length : Z) (w : unit)
    : result (list string) * unit :=
  (Raise (External "sentence handler"), w).

Definition broken_lengths (content : list string) (hidden : Z)
    (reduce_option : string) (w : unit) : result (list Z) * unit :=
  (Raise (External "sequence too long"), w).

Definition broken_cluster (hidden : list Z) (algorithm : string)
    (random_state : Z) (ratio : Q) (num_sentences : option Z) (w : unit)
    : result (list Z) * unit :=
  (Raise (External "clustering"), w).

Definition sentence_one : string :=
  "Sentence one is long enough to pass the filter here.".

Definition sentence_two : string :=
  "Sentence two also passes the filter nicely.".

Definition run (cluster : list Z -> string -> Z -> Q -> option Z -> unit ->
                          result (list Z) * unit)
    (self : ModelProcessor.t unit Z) (body : string) :=
  ModelProcessor.run cluster self body (1 # 5)%Q 10 100 true "kmeans" None (tt, []).

Definition run_embeddings
    (cluster : list Z -> string -> Z -> Q -> option Z -> unit ->
               result (list Z) * unit)
    (self : ModelProcessor.t unit Z) (body : string) (aggregate : option string) :=
  ModelProcessor.run_embeddings cluster Reference.total Reference.smallest
    Reference.total Reference.largest self body (1 # 5)%Q 10 100 true "kmeans"
    None aggregate (tt, []).

Definition deaf_processor : ModelProcessor.t unit Z :=
  ModelProcessor.Build Reference.lengths (-2) "mean" broken_handler 12345.

Definition blind_processor : ModelProcessor.t unit Z :=
  ModelProcessor.Build broken_lengths (-2) "mean" Reference.handler 12345.

End EntryReference.

(* ================================================================== *)
(** ** Facts about the Python primitives *)
(* ================================================================== *)

Module PyFacts.

Lemma len_nonneg {A} (l : list A) : 0 <= len l.
Proof. unfold len. lia. Qed.

Lemma getitem_nat {A} (l : list A) (i : nat) :
  getitem l (Z.of_nat i) =
  match nth_error l i with Some a => Ok a | None => Raise IndexError end.
Proof.
  unfold getitem.
  destruct (Z.of_nat i <? 0) eqn:E; [apply Z.ltb_lt in E; lia|].
  rewrite E, Nat2Z.id. reflexivity.
Qed.

Lemma getitem_in_range {A} (l : list A) (j : Z) :
  0 <= j < len l ->
  exists a, getitem l j = Ok a /\ nth_error l (Z.to_nat j) = Some a.
Proof.
  intros [Hlo Hhi]. unfold getitem.
  destruct (j <? 0) eqn:E; [apply Z.ltb_lt in E; lia|].
  rewrite E.
  destruct (nth_error l (Z.to_nat j)) as [a|] eqn:N.
  - exists a. split; reflexivity.
  - apply nth_error_None in N. unfold len in Hhi. lia.
Qed.

Lemma getitem_raises {A} (l : list A) (j : Z) (e : exn) :
  getitem l j = Raise e -> e = IndexError.
Proof.
  unfold getitem.
  destruct (_ <? 0); [intros H; inversion H; reflexivity|].
  destruct (nth_error _ _); intros H; inversion H; reflexivity.
Qed.

Lemma comprehension_total {A B} (f : A -> result B) (l : list A) :
  Forall (fun a => exists b, f a = Ok b) l ->
  exists bs, comprehension f l = Ok bs /\ Forall2 (fun a b => f a = Ok b) l bs.
Proof.
  induction 1 as [|a l [b Hb] _ [bs [Hbs HF]]]; simpl.
  - exists []. split; [reflexivity | constructor].
  - rewrite Hb, Hbs. exists (b :: bs). split; [reflexivity|].
    constructor; assumption.
Qed.

Lemma comprehension_ok {A B} (f : A -> result B) (l : list A) (bs : list B) :
  comprehension f l = Ok bs -> Forall2 (fun a b => f a = Ok b) l bs.
Proof.
  revert bs. induction l as [|a l IH]; simpl; intros bs H.
  - inversion H. constructor.
  - destruct (f a) as [b|e] eqn:Fa; [|discriminate].
    destruct (comprehension f l) as [bs'|e] eqn:C; [|discriminate].
    inversion H; subst. constructor; [assumption | apply IH; reflexivity].
Qed.

Lemma comprehension_raises {A B} (f : A -> result B) (l : list A) (e : exn) :
  comprehension f l = Raise e -> exists a, In a l /\ f a = Raise e.
Proof.
  induction l as [|a l IH]; simpl; [discriminate|].
  destruct (f a) as [b|e'] eqn:Fa.
  - destruct (comprehension f l) as [bs|e'']; [discriminate|].
    intros H; inversion H; subst.
    destruct IH as [x [Hx Fx]]; [reflexivity|].
    exists x. split; [right; assumption | assumption].
  - intros H; inversion H; subst. exists a. split; [left; reflexivity | assumption].
Qed.

Lemma contains_true (l : list string) (x : string) :
  contains l x = true <-> In x l.
Proof.
  unfold contains. rewrite existsb_exists. split.
  - intros [y [Hy E]]. apply String.eqb_eq in E. subst. assumption.
  - intros H. exists x. split; [assumption | apply String.eqb_refl].
Qed.

Lemma contains_false (l : list string) (x : string) :
  contains l x = false <-> ~ In x l.
Proof.
  rewrite <- contains_true. destruct (contains l x); split; congruence.
Qed.

End PyFacts.

(* ================================================================== *)
(** ** Facts about ModelProcessor *)
(* ================================================================== *)

Module ProcessorFacts.

Import ModelProcessor PyFacts.

Lemma force_first_off (args : list Z) : force_first false args = args.
Proof. reflexivity. Qed.

Lemma force_first_head (args : list Z) :
  exists rest, force_first true args = 0 :: rest.
Proof.
  destruct args as [|first rest]; simpl.
  - exists []. reflexivity.
  - destruct (first =? 0) eqn:E; simpl.
    + apply Z.eqb_eq in E. subst. exists rest. reflexivity.
    + exists (first :: rest). reflexivity.
Qed.

Lemma force_first_cons (first : Z) (rest : list Z) :
  first <> 0 -> force_first true (first :: rest) = 0 :: first :: rest.
Proof.
  intros H. simpl. apply Z.eqb_neq in H. rewrite H. reflexivity.
Qed.

Lemma force_first_incl (use_first : bool) (args : list Z) (j : Z) :
  In j (force_first use_first args) -> j = 0 \/ In j args.
Proof.
  destruct use_first; simpl; [|tauto].
  destruct args as [|first rest]; simpl.
  - intros [H|[]]. left. congruence.
  - destruct (first =? 0); simpl; intros H.
    + right. assumption.
    + destruct H as [H|H]; [left; congruence | right; assumption].
Qed.

Lemma force_first_sorted (use_first : bool) (args : list Z) :
  StronglySorted Z.lt args -> Forall (fun j => 0 <= j) args ->
  StronglySorted Z.lt (force_first use_first args).
Proof.
  intros Hs Hp. destruct use_first; simpl; [|assumption].
  destruct args as [|first rest]; simpl.
  - repeat constructor.
  - destruct (first =? 0) eqn:E; simpl; [assumption|].
    apply Z.eqb_neq in E.
    inversion Hp as [|? ? Hf _]; subst.
    inversion Hs as [|? ? _ Hall]; subst.
    constructor; [assumption|].
    constructor; [lia|].
    eapply Forall_impl; [|exact Hall]. simpl. intros; lia.
Qed.

Lemma ascending_nodup (l : list Z) : StronglySorted Z.lt l -> NoDup l.
Proof.
  induction 1 as [|a l _ IH Hall]; constructor; [|assumption].
  intros Hin. rewrite Forall_forall in Hall.
  specialize (Hall a Hin). lia.
Qed.

Section Facts.

Context {World Vec : Type}.
Variable cluster :
  list Vec -> string -> Z -> Q -> option Z -> World -> result (list Z) * World.
Variables np_mean np_min np_median np_max : list Vec -> result Vec.

Lemma cluster_runner_eq (self : t World Vec) content ratio algorithm use_first
      num_sentences w tr hid w1 args w2 :
  model self content (hidden self) (reduce_option self) w = (Ok hid, w1) ->
  cluster hid algorithm (random_state self) ratio num_sentences w1 = (Ok args, w2) ->
  cluster_runner cluster self content ratio algorithm use_first num_sentences (w, tr)
  = (gather content hid (force_first use_first args),
     (w2, tr ++ [EvEmbed; EvCluster])).
Proof.
  intros Hm Hc. unfold cluster_runner, bind, call, lift, ret, gather, and_then.
  rewrite Hm.
  replace (match num_sentences with
           | Some n => Some (if use_first then n else n)
           | None => None
           end) with num_sentences
    by (destruct num_sentences; destruct use_first; reflexivity).
  rewrite Hc. rewrite <- app_assoc. simpl.
  destruct (comprehension (getitem content) _); [|reflexivity].
  destruct (comprehension (getitem hid) _); reflexivity.
Qed.

Lemma cluster_runner_ok_trace (self : t World Vec) content ratio algorithm
      use_first num_sentences w tr selection st :
  cluster_runner cluster self content ratio algorithm use_first num_sentences (w, tr)
  = (Ok selection, st) ->
  snd st = tr ++ [EvEmbed; EvCluster].
Proof.
  unfold cluster_runner, bind, call, lift, ret.
  destruct (model self content (hidden self) (reduce_option self) w) as [[hid|e] w1];
    [|discriminate].
  destruct (cluster hid algorithm (random_state self) ratio _ w1) as [[args|e] w2];
    [|discriminate].
  destruct (comprehension (getitem content) _); [|discriminate].
  destruct (comprehension (getitem hid) _); [|discriminate].
  intros H; inversion H; subst. simpl. rewrite <- app_assoc. reflexivity.
Qed.

(** C1 (as amended). When the body yields at least one sentence and the
    aggregate name is none of mean, median, max, min, [run_embeddings]
    raises the assertion error only after the embeddings have been
    extracted and clustered: the error comes with the state in which
    [cluster_runner] ended, whose trace holds both computations. When
    the body yields no sentence the call returns [None] and raises
    nothing. *)
Theorem invalid_aggregate_raises_after_clustering
    (self : t World Vec) body ratio min_length max_length use_first algorithm
    num_sentences name w tr sentences w0 :
  ~ In name aggregate_names ->
  sentence_handler self body min_length max_length w = (Ok sentences, w0) ->
  (sentences = [] ->
   run_embeddings cluster np_mean np_min np_median np_max self body ratio
     min_length max_length use_first algorithm num_sentences (Some name) (w, tr)
   = (Ok NoResult, (w0, tr ++ [EvSegment]))) /\
  (sentences <> [] ->
   forall selection st,
     cluster_runner cluster self sentences ratio algorithm use_first
       num_sentences (w0, tr ++ [EvSegment]) = (Ok selection, st) ->
     run_embeddings cluster np_mean np_min np_median np_max self body ratio
       min_length max_length use_first algorithm num_sentences (Some name) (w, tr)
     = (Raise (AssertionError aggregate_message), st) /\
     snd st = tr ++ [EvSegment; EvEmbed; EvCluster]).
Proof.
  intros Hname Hseg. split.
  - intros ->. unfold run_embeddings, bind, call. rewrite Hseg. reflexivity.
  - intros Hne selection st Hrun.
    split.
    + unfold run_embeddings, retrieve_summarized_embeddings, bind, call.
      rewrite Hseg.
      destruct sentences as [|s0 rest]; [contradiction|].
      change (truthy (s0 :: rest)) with true. cbv beta iota.
      rewrite Hrun. unfold ret.
      apply contains_false in Hname. rewrite Hname. reflexivity.
    + apply cluster_runner_ok_trace in Hrun. rewrite Hrun, <- app_assoc.
      reflexivity.
Qed.

(** C2. When the sentence handler yields no sentence, [run] returns the
    empty string and [run_embeddings] returns [None]; neither raises, and
    nothing but the segmentation has run. *)
Theorem no_sentences_no_summary
    (self : t World Vec) body ratio min_length max_length use_first algorithm
    num_sentences aggregate w tr w0 :
  sentence_handler self body min_length max_length w = (Ok [], w0) ->
  run cluster self body ratio min_length max_length use_first algorithm
    num_sentences (w, tr)
  = (Ok EmptyString, (w0, tr ++ [EvSegment])) /\
  run_embeddings cluster np_mean np_min np_median np_max self body ratio
    min_length max_length use_first algorithm num_sentences aggregate (w, tr)
  = (Ok NoResult, (w0, tr ++ [EvSegment])).
Proof.
  intros Hseg. split.
  - unfold run, bind, call. rewrite Hseg. reflexivity.
  - unfold run_embeddings, bind, call. rewrite Hseg. reflexivity.
Qed.

(** C3. With [use_first], an empty index list becomes [[0]], a list whose
    first element is not 0 gets 0 inserted in front, so 0 is always
    selected; what [cluster_runner] returns then starts with the first
    sentence and its hidden state, and it raises only [IndexError], when
    a selected index lies outside the content. *)
Theorem use_first_selects_first_sentence
    (self : t World Vec) content ratio algorithm num_sentences w tr hid w1
    args w2 :
  model self content (hidden self) (reduce_option self) w = (Ok hid, w1) ->
  cluster hid algorithm (random_state self) ratio num_sentences w1 = (Ok args, w2) ->
  let selected := force_first true args in
  (args = [] -> selected = [0]) /\
  (forall first rest, args = first :: rest -> first <> 0 ->
                      selected = 0 :: first :: rest) /\
  In 0 selected /\
  match fst (cluster_runner cluster self content ratio algorithm true
               num_sentences (w, tr)) with
  | Ok (sentences, embeddings) =>
      exists s0 e0 ss es,
        sentences = s0 :: ss /\ embeddings = e0 :: es /\
        nth_error content 0 = Some s0 /\ nth_error hid 0 = Some e0
  | Raise e =>
      e = IndexError /\
      exists j, In j selected /\
                (getitem content j = Raise IndexError \/
                 getitem hid j = Raise IndexError)
  end.
Proof.
  intros Hm Hc selected.
  split; [intros ->; reflexivity|].
  split; [intros first rest -> Hne; apply force_first_cons; assumption|].
  destruct (force_first_head args) as [rest Hsel]. fold selected in Hsel.
  split; [rewrite Hsel; left; reflexivity|].
  rewrite (cluster_runner_eq self content ratio algorithm true num_sentences
             w tr hid w1 args w2 Hm Hc).
  fold selected. simpl fst. unfold gather, and_then.
  destruct (comprehension (getitem content) selected) as [sentences|e] eqn:Cs.
  - destruct (comprehension (getitem hid) selected) as [embeddings|e] eqn:Ce.
    + apply comprehension_ok in Cs. apply comprehension_ok in Ce.
      rewrite Hsel in Cs, Ce.
      inversion Cs as [|? s0 ? ss Hs0 _]; subst.
      inversion Ce as [|? e0 ? es He0 _]; subst.
      exists s0, e0, ss, es.
      unfold getitem in Hs0, He0. simpl in Hs0, He0.
      repeat split.
      * destruct content; simpl; [discriminate | congruence].
      * destruct hid; simpl; [discriminate | congruence].
    + apply comprehension_raises in Ce. destruct Ce as [j [Hj Fj]].
      pose proof (getitem_raises _ _ _ Fj) as ->.
      split; [reflexivity|]. exists j. split; [assumption | right; assumption].
  - apply comprehension_raises in Cs. destruct Cs as [j [Hj Fj]].
    pose proof (getitem_raises _ _ _ Fj) as ->.
    split; [reflexivity|]. exists j. split; [assumption | left; assumption].
Qed.

(** C4 (as amended). [cluster_runner] neither sorts nor removes
    duplicates. When the index list the clustering step answers is
    strictly ascending and within the content, the call returns, and the
    indices it selects are strictly ascending and pairwise distinct; the
    sentences and embeddings returned are those found at these indices,
    in this order. *)
Theorem sorted_answer_gives_ordered_selection
    (self : t World Vec) content ratio algorithm use_first num_sentences w tr
    hid w1 args w2 :
  model self content (hidden self) (reduce_option self) w = (Ok hid, w1) ->
  cluster hid algorithm (random_state self) ratio num_sentences w1 = (Ok args, w2) ->
  content <> [] ->
  List.length hid = List.length content ->
  StronglySorted Z.lt args ->
  Forall (fun j => 0 <= j < len content) args ->
  let selected := force_first use_first args in
  exists sentences embeddings,
    cluster_runner cluster self content ratio algorithm use_first
      num_sentences (w, tr)
    = (Ok (sentences, embeddings), (w2, tr ++ [EvEmbed; EvCluster])) /\
    ordered_selection selected /\
    Forall2 (fun j s => nth_error content (Z.to_nat j) = Some s)
            selected sentences /\
    Forall2 (fun j e => nth_error hid (Z.to_nat j) = Some e)
            selected embeddings.
Proof.
  intros Hm Hc Hne Hlen Hsorted Hrange selected.
  assert (Hsel : Forall (fun j => 0 <= j < len content) selected).
  { rewrite Forall_forall in *. intros j Hj.
    apply force_first_incl in Hj. destruct Hj as [-> | Hj]; [|auto].
    destruct content; [contradiction|]. unfold len. simpl. lia. }
  assert (Hsorted' : StronglySorted Z.lt selected).
  { apply force_first_sorted; [assumption|].
    eapply Forall_impl; [|exact Hrange]. simpl. intros; lia. }
  destruct (comprehension_total (getitem content) selected) as [sentences [Cs Fs]].
  { eapply Forall_impl; [|exact Hsel]. simpl. intros j Hj.
    destruct (getitem_in_range content j Hj) as [a [Ha _]]. exists a. exact Ha. }
  destruct (comprehension_total (getitem hid) selected) as [embeddings [Ce Fe]].
  { eapply Forall_impl; [|exact Hsel]. simpl. intros j Hj.
    assert (Hj' : 0 <= j < len hid) by (unfold len in *; lia).
    destruct (getitem_in_range hid j Hj') as [a [Ha _]]. exists a. exact Ha. }
  exists sentences, embeddings.
  split.
  - rewrite (cluster_runner_eq self content ratio algorithm use_first
               num_sentences w tr hid w1 args w2 Hm Hc).
    fold selected. unfold gather, and_then. rewrite Cs, Ce. reflexivity.
  - split; [split; [|apply ascending_nodup]; assumption|].
    split.
    + clear Ce Fe Cs. induction Fs as [|j s js ss Hj _ IH]; constructor.
      * inversion Hsel as [|? ? Hr _]; subst.
        destruct (getitem_in_range content j Hr) as [a [Ha Hn]]. congruence.
      * apply IH; inversion Hsel; inversion Hsorted'; assumption.
    + clear Ce Cs Fs. induction Fe as [|j e js es Hj _ IH]; constructor.
      * inversion Hsel as [|? ? Hr _]; subst.
        assert (Hr' : 0 <= j < len hid) by (unfold len in *; lia).
        destruct (getitem_in_range hid j Hr') as [a [Ha Hn]]. congruence.
      * apply IH; inversion Hsel; inversion Hsorted'; assumption.
Qed.

End Facts.

(** Witness of C1: a body of two sentences and the aggregate "sum". *)
Lemma invalid_aggregate_raises_after_clustering_witness :
  Reference.run_embeddings [0] Reference.two_sentences None (Some "sum")
  = (Raise (AssertionError aggregate_message),
     (tt, [EvSegment; EvEmbed; EvCluster])).
Proof.
  assert (Hname : ~ In "sum" aggregate_names)
    by (simpl; intuition discriminate).
  destruct (invalid_aggregate_raises_after_clustering
              (Reference.answers [0]) Reference.total Reference.smallest
              Reference.total Reference.largest Reference.processor
              Reference.two_sentences (1 # 5)%Q 10 100 true "kmeans" None "sum"
              tt []
              ["Sentence one is long enough to pass the filter here.";
               "Sentence two also passes the filter nicely."]
              tt Hname eq_refl) as [_ Hraise].
  destruct (Hraise ltac:(discriminate)
              (["Sentence one is long enough to pass the filter here."], [52])
              (tt, [EvSegment; EvEmbed; EvCluster]) eq_refl) as [Hrun _].
  exact Hrun.
Defined.

(** Counterexample to C1 as stated: with the aggregate "sum" the error is
    raised after the embeddings were extracted and clustered, and on an
    empty body it is not raised at all. *)
Lemma invalid_aggregate_does_not_fail_fast :
  ~ In "sum" aggregate_names /\
  ~ fails_fast (Reference.run_embeddings [0] Reference.two_sentences None
                  (Some "sum")) /\
  ~ fails_fast (Reference.run_embeddings [0] EmptyString None (Some "sum")).
Proof.
  split; [simpl; intuition discriminate|].
  split; intros [Hraise Htrace].
  - vm_compute in Htrace. discriminate.
  - destruct Hraise as [msg Hmsg]. vm_compute in Hmsg. discriminate.
Qed.

(** Witness of C2: the empty body. *)
Lemma no_sentences_no_summary_witness :
  run (Reference.answers [0]) Reference.processor EmptyString (1 # 5)%Q 10 100 true
      "kmeans" None (tt, [])
  = (Ok EmptyString, (tt, [EvSegment])) /\
  Reference.run_embeddings [0] EmptyString None (Some "mean")
  = (Ok NoResult, (tt, [EvSegment])).
Proof.
  exact (no_sentences_no_summary
           (Reference.answers [0]) Reference.total Reference.smallest
           Reference.total Reference.largest Reference.processor
           EmptyString (1 # 5)%Q 10 100 true "kmeans" None (Some "mean") tt [] tt eq_refl).
Defined.

(** Witness of C3: three sentences, the clustering step answers [[1]]. *)
Lemma use_first_selects_first_sentence_witness :
  In 0 (force_first true [1]) /\
  fst (Reference.cluster_runner [1] Reference.abc true) = Ok (["a"; "b"], [1; 1]).
Proof.
  destruct (use_first_selects_first_sentence
              (Reference.answers [1]) Reference.processor Reference.abc (1 # 5)%Q
              "kmeans" None tt [] [1; 1; 1] tt [1] tt eq_refl eq_refl)
    as [_ [_ [Hin _]]].
  split; [exact Hin | reflexivity].
Defined.

(** Witness of C4: three sentences, the clustering step answers
    [[1; 2]]. *)
Lemma sorted_answer_gives_ordered_selection_witness :
  exists sentences embeddings,
    Reference.cluster_runner [1; 2] Reference.abc true
    = (Ok (sentences, embeddings), (tt, [EvEmbed; EvCluster])) /\
    ordered_selection (force_first true [1; 2]).
Proof.
  assert (Hsorted : StronglySorted Z.lt [1; 2])
    by (repeat constructor; lia).
  assert (Hrange : Forall (fun j => 0 <= j < len Reference.abc) [1; 2])
    by (repeat constructor; unfold len; simpl; lia).
  destruct (sorted_answer_gives_ordered_selection
              (Reference.answers [1; 2]) Reference.processor Reference.abc (1 # 5)%Q
              "kmeans" true None tt [] [1; 1; 1] tt [1; 2] tt eq_refl eq_refl
              ltac:(discriminate) eq_refl Hsorted Hrange)
    as [sentences [embeddings [Hrun [Hord _]]]].
  exists sentences, embeddings. split; [exact Hrun | exact Hord].
Defined.

(** Counterexample to C4 as stated: when the clustering step answers
    [[2; 1]] the selection is [[0; 2; 1]], which is not ascending, and when
    it answers [[1; 0]] the first sentence is returned twice. *)
Lemma unsorted_answer_gives_unordered_selection :
  fst (Reference.cluster_runner [2; 1] Reference.abc true) = Ok (["a"; "c"; "b"], [1; 1; 1]) /\
  ~ ordered_selection (force_first true [2; 1]) /\
  fst (Reference.cluster_runner [1; 0] Reference.abc true) = Ok (["a"; "b"; "a"], [1; 1; 1]) /\
  ~ ordered_selection (force_first true [1; 0]).
Proof.
  split; [reflexivity|]. split; [|split; [reflexivity|]].
  - intros [Hs _]. simpl in Hs.
    inversion Hs as [|? ? Hs' _]; subst.
    inversion Hs' as [|? ? _ Hall]; subst.
    inversion Hall; subst. lia.
  - intros [_ Hn]. simpl in Hn.
    inversion Hn as [|? ? Hnotin _]; subst.
    apply Hnotin. right. left. reflexivity.
Qed.

End ProcessorFacts.

(* ================================================================== *)
(** ** Facts about dictionaries *)
(* ================================================================== *)

Module DictFacts.

Section Dict.

Context {V : Type}.
Implicit Types (d : dict V) (k : string) (v : V).

Lemma dict_mem_keys d k : dict_mem d k = true <-> In k (keys d).
Proof.
  unfold dict_mem, keys. rewrite existsb_exists, in_map_iff. split.
  - intros [kv [Hin E]]. apply String.eqb_eq in E. exists kv. split; auto.
  - intros [kv [E Hin]]. exists kv. split; [assumption|].
    apply String.eqb_eq. auto.
Qed.

Lemma dict_get_in d k : In k (keys d) -> exists v, dict_get d k = Ok v.
Proof.
  induction d as [|[k' v'] d IH]; simpl; [tauto|].
  intros [E|Hin].
  - subst. rewrite String.eqb_refl. eauto.
  - destruct (String.eqb k k'); eauto.
Qed.

Lemma dict_get_ok_in d k v : dict_get d k = Ok v -> In (k, v) d.
Proof.
  induction d as [|[k' v'] d IH]; simpl; [discriminate|].
  destruct (String.eqb k k') eqn:E.
  - apply String.eqb_eq in E. intros H; inversion H; subst. left. reflexivity.
  - intros H. right. auto.
Qed.

Lemma dict_get_set_same d k v : dict_get (dict_set d k v) k = Ok v.
Proof.
  induction d as [|[k' v'] d IH]; simpl.
  - rewrite String.eqb_refl. reflexivity.
  - destruct (String.eqb k k') eqn:E; simpl; rewrite E; auto.
Qed.

Lemma dict_get_set_other d k k' v :
  k <> k' -> dict_get (dict_set d k v) k' = dict_get d k'.
Proof.
  intros Hne. induction d as [|[k0 v0] d IH]; simpl.
  - apply String.eqb_neq in Hne. rewrite String.eqb_sym, Hne. reflexivity.
  - destruct (String.eqb k k0) eqn:E; simpl.
    + apply String.eqb_eq in E. subst k0.
      destruct (String.eqb k' k) eqn:E'; [|reflexivity].
      apply String.eqb_eq in E'. congruence.
    + rewrite IH. reflexivity.
Qed.

Lemma keys_set_in d k v : In k (keys d) -> keys (dict_set d k v) = keys d.
Proof.
  induction d as [|[k' v'] d IH]; simpl; [tauto|].
  destruct (String.eqb k k') eqn:E; simpl; [reflexivity|].
  intros [H|H].
  - subst. rewrite String.eqb_refl in E. discriminate.
  - rewrite IH; auto.
Qed.

Lemma keys_set_new d k v : ~ In k (keys d) -> keys (dict_set d k v) = keys d ++ [k].
Proof.
  induction d as [|[k' v'] d IH]; simpl; [reflexivity|].
  intros Hn. destruct (String.eqb k k') eqn:E; simpl.
  - apply String.eqb_eq in E. subst. tauto.
  - rewrite IH; auto.
Qed.

Lemma dict_get_skip (pre suf : dict V) k :
  ~ In k (keys pre) -> dict_get (pre ++ suf) k = dict_get suf k.
Proof.
  induction pre as [|[k' v'] pre IH]; simpl; [reflexivity|].
  intros Hn. destruct (String.eqb k k') eqn:E.
  - apply String.eqb_eq in E. subst. tauto.
  - apply IH. tauto.
Qed.

Lemma dict_set_skip (pre suf : dict V) k v :
  ~ In k (keys pre) -> dict_set (pre ++ suf) k v = pre ++ dict_set suf k v.
Proof.
  induction pre as [|[k' v'] pre IH]; simpl; [reflexivity|].
  intros Hn. destruct (String.eqb k k') eqn:E.
  - apply String.eqb_eq in E. subst. tauto.
  - rewrite IH; tauto.
Qed.

End Dict.

Lemma dict_get_map {V W} (f : V -> W) (d : dict V) (k : string) :
  dict_get (map (fun kv => (fst kv, f (snd kv))) d) k =
  match dict_get d k with Ok v => Ok (f v) | Raise e => Raise e end.
Proof.
  induction d as [|[k' v'] d IH]; simpl; [reflexivity|].
  destruct (String.eqb k k'); auto.
Qed.

Lemma keys_map {V W} (f : V -> W) (d : dict V) :
  keys (map (fun kv => (fst kv, f (snd kv))) d) = keys d.
Proof.
  unfold keys. rewrite map_map. reflexivity.
Qed.

End DictFacts.

(* ================================================================== *)
(** ** Facts about the summarizer *)
(* ================================================================== *)

Module SummarizeFacts.

Import Summarize PyFacts DictFacts.

Lemma keys_app {V} (d1 d2 : dict V) : keys (d1 ++ d2) = keys d1 ++ keys d2.
Proof. unfold keys. apply map_app. Qed.

Lemma inject_succ (n : nat) :
  (inject_Z (Z.of_nat (S n)) == inject_Z (Z.of_nat n) + 1)%Q.
Proof.
  rewrite Nat2Z.inj_succ. unfold Z.succ. rewrite inject_Z_plus. reflexivity.
Qed.

(** *** Counting (lines 347-351) *)

Lemma count_words_spec (filtered : list string) :
  forall d, NoDup (keys d) ->
  exists d',
    count_words filtered d = Ok d' /\ NoDup (keys d') /\
    (forall w, In w (keys d') <-> In w (keys d) \/ In w filtered) /\
    (forall w, (value_of d' w ==
                value_of d w
                + inject_Z (Z.of_nat (count_occ string_dec filtered w)))%Q).
Proof.
  induction filtered as [|w rest IH]; intros d Hnd; simpl.
  - exists d. split; [reflexivity|]. split; [assumption|]. split.
    + intros x. tauto.
    + intros x. simpl. rewrite Qplus_0_r. reflexivity.
  - destruct (dict_mem d w) eqn:M.
    + apply dict_mem_keys in M. destruct (dict_get_in d w M) as [v Hv].
      rewrite Hv. simpl and_then.
      destruct (IH (dict_set d w (v + 1)%Q)) as [d' [Hc [Hnd' [Hk Hval]]]].
      { rewrite keys_set_in; assumption. }
      exists d'. split; [exact Hc|]. split; [assumption|]. split.
      * intros x. rewrite Hk, keys_set_in by assumption.
        split; [intros [H|H]; auto | intros [H|[H|H]]; subst; auto].
      * intros x. rewrite Hval. unfold value_of.
        destruct (string_dec w x) as [->|Hne].
        -- rewrite dict_get_set_same, Hv, inject_succ. ring.
        -- rewrite dict_get_set_other by assumption. reflexivity.
    + assert (Hnot : ~ In w (keys d)).
      { intros Hin. apply dict_mem_keys in Hin. congruence. }
      destruct (IH (dict_set d w 1%Q)) as [d' [Hc [Hnd' [Hk Hval]]]].
      { rewrite keys_set_new by assumption.
        apply NoDup_app; [assumption | repeat constructor; simpl; tauto |].
        intros x Hx [E|[]]. subst. contradiction. }
      exists d'. split; [exact Hc|]. split; [assumption|]. split.
      * intros x. rewrite Hk, keys_set_new by assumption. rewrite in_app_iff.
        simpl. tauto.
      * intros x. rewrite Hval. unfold value_of.
        destruct (string_dec w x) as [->|Hne].
        -- rewrite dict_get_set_same, inject_succ.
           destruct (dict_get d x) as [v|e] eqn:G.
           ++ apply dict_get_ok_in in G. exfalso. apply Hnot.
              unfold keys. apply in_map_iff. exists (x, v). split; auto.
           ++ ring.
        -- rewrite dict_get_set_other by assumption. reflexivity.
Qed.

Lemma count_words_nonempty (filtered : list string) (counts : dict Q) :
  count_words filtered [] = Ok counts -> counts <> [] -> 1 <= len filtered.
Proof.
  destruct filtered as [|w rest]; simpl.
  - intros H; inversion H; subst. congruence.
  - intros _ _. unfold len. simpl List.length. lia.
Qed.

(** *** Normalising (lines 352-353) *)

Lemma normalize_loop_exact (total_words : Z) :
  total_words <> 0 ->
  forall suf pre,
    NoDup (keys (pre ++ suf)) ->
    normalize_loop (keys suf) (pre ++ suf) total_words
    = Ok (pre ++ map (divide_entry total_words) suf).
Proof.
  intros Hne. induction suf as [|[k v] suf IH]; intros pre Hnd; simpl.
  - rewrite app_nil_r. reflexivity.
  - assert (Hk : ~ In k (keys pre)).
    { rewrite keys_app in Hnd. simpl in Hnd.
      apply NoDup_remove_2 in Hnd. rewrite in_app_iff in Hnd. tauto. }
    rewrite dict_get_skip by assumption. simpl. rewrite String.eqb_refl.
    simpl and_then. unfold truediv. apply Z.eqb_neq in Hne. rewrite Hne.
    simpl and_then.
    rewrite dict_set_skip by assumption. simpl. rewrite String.eqb_refl.
    change (pre ++ (k, (v / inject_Z total_words)%Q) :: suf)
      with (pre ++ [(k, (v / inject_Z total_words)%Q)] ++ suf).
    rewrite app_assoc, IH.
    + rewrite <- app_assoc. reflexivity.
    + rewrite <- app_assoc. rewrite keys_app in *. exact Hnd.
Qed.

Lemma normalize_exact (counts : dict Q) (total_words : Z) :
  NoDup (keys counts) -> (counts <> [] -> total_words <> 0) ->
  normalize counts total_words = Ok (map (divide_entry total_words) counts).
Proof.
  intros Hnd Hne. unfold normalize. destruct counts as [|kv counts].
  - reflexivity.
  - apply (normalize_loop_exact total_words) with (pre := []).
    + apply Hne. discriminate.
    + exact Hnd.
Qed.

(** *** Scoring (lines 354-358) *)

Lemma score_loop_spec (d : dict Q) (sentence : string) :
  forall words acc,
    incl words (keys d) ->
    exists r,
      score_loop words d sentence acc = Ok r /\
      (r == acc + Qsum (map (fun j => if substring_of j sentence
                                      then value_of d j else 0) words))%Q.
Proof.
  induction words as [|j words IH]; intros acc Hincl; simpl.
  - exists acc. split; [reflexivity | ring].
  - assert (Hw : incl words (keys d)) by (intros x Hx; apply Hincl; right; exact Hx).
    destruct (substring_of j sentence).
    + destruct (dict_get_in d j) as [v Hv]; [apply Hincl; left; reflexivity|].
      rewrite Hv. simpl and_then.
      destruct (IH (acc + v)%Q Hw) as [r [Hr Hsum]].
      exists r. split; [exact Hr|]. rewrite Hsum. unfold value_of at 2.
      rewrite Hv. ring.
    + destruct (IH acc Hw) as [r [Hr Hsum]].
      exists r. split; [exact Hr|]. rewrite Hsum. ring.
Qed.

(** *** Selecting (lines 359-365) *)

Lemma len_app_one {A} (l : list A) (a : A) : len (l ++ [a]) = len l + 1.
Proof. unfold len. rewrite length_app. simpl. lia. Qed.

Lemma max_from_nth (l : list Q) :
  forall pre best,
    nth_error (pre ++ l) (fst best) = Some (snd best) ->
    nth_error (pre ++ l) (fst (max_from best (List.length pre) l))
    = Some (snd (max_from best (List.length pre) l)).
Proof.
  induction l as [|v l IH]; intros pre best H.
  - exact H.
  - cbn [max_from].
    replace (S (List.length pre)) with (List.length (pre ++ [v]))
      by (rewrite length_app; simpl; lia).
    replace (pre ++ v :: l) with ((pre ++ [v]) ++ l) in *
      by (rewrite <- app_assoc; reflexivity).
    apply IH.
    destruct (Qlt_bool (snd best) v); [|exact H].
    cbn [fst snd]. rewrite <- app_assoc.
    rewrite nth_error_app2 by lia. rewrite Nat.sub_diag. reflexivity.
Qed.

Lemma max_enumerate_spec (tracker : list Q) :
  tracker <> [] ->
  exists i x, max_enumerate tracker = Ok (i, x) /\ nth_error tracker i = Some x.
Proof.
  destruct tracker as [|v l]; [congruence|]. intros _.
  pose proof (max_from_nth l [v] (0%nat, v) eq_refl) as H.
  change (List.length [v]) with 1%nat in H. change ([v] ++ l) with (v :: l) in H.
  unfold max_enumerate.
  destruct (max_from (0%nat, v) 1 l) as [i x]. exists i, x.
  split; [reflexivity | exact H].
Qed.

Lemma list_remove_total (x : Q) :
  forall l i,
    nth_error l i = Some x ->
    exists l', list_remove x l = Ok l' /\ List.length l = S (List.length l').
Proof.
  induction l as [|y l IH]; intros i H.
  - destruct i; discriminate.
  - cbn [list_remove]. destruct (Qeq_bool y x) eqn:E.
    + exists l. split; reflexivity.
    + destruct i as [|i]; simpl in H.
      * inversion H; subst. rewrite Qeq_bool_refl in E. discriminate.
      * destruct (IH i H) as [l' [Hr Hl]]. rewrite Hr.
        exists (y :: l'). split; [reflexivity | simpl; lia].
Qed.

Lemma select_loop_step rounds sentences max_sentences tracker output :
  select_loop (S rounds) sentences max_sentences tracker output =
  (iv <~ max_enumerate tracker ;;
   output1 <~
     (if len output + 1 <=? max_sentences then
        s <~ getitem sentences (Z.of_nat (fst iv)) ;;
        Ok (if negb (contains output s) then output ++ [s] else output)
      else Ok output) ;;
   if len output1 >? max_sentences then Ok output1
   else
     x <~ getitem tracker (Z.of_nat (fst iv)) ;;
     tracker' <~ list_remove x tracker ;;
     select_loop rounds sentences max_sentences tracker' output1).
Proof. reflexivity. Qed.

Lemma pick_spec sentences max_sentences output (i : nat) :
  (i < List.length sentences)%nat ->
  selection_ok sentences max_sentences output ->
  exists output1,
    (if len output + 1 <=? max_sentences then
       s <~ getitem sentences (Z.of_nat i) ;;
       Ok (if negb (contains output s) then output ++ [s] else output)
     else Ok output) = Ok output1 /\
    selection_ok sentences max_sentences output1.
Proof.
  intros Hi [Hnd [Hincl Hlen]].
  destruct (len output + 1 <=? max_sentences) eqn:C.
  - apply Z.leb_le in C. rewrite getitem_nat.
    destruct (nth_error sentences i) as [s|] eqn:N.
    + simpl and_then. destruct (contains output s) eqn:M; simpl negb; cbv iota.
      * exists output. repeat split; assumption.
      * apply contains_false in M. exists (output ++ [s]).
        split; [reflexivity|]. split; [|split].
        -- apply NoDup_app; [assumption | repeat constructor; simpl; tauto|].
           intros a Ha [E|[]]. subst. contradiction.
        -- intros a Ha. apply in_app_iff in Ha. destruct Ha as [Ha|[E|[]]].
           ++ apply Hincl. exact Ha.
           ++ subst. eapply nth_error_In. exact N.
        -- rewrite len_app_one. lia.
    + apply nth_error_None in N. lia.
  - exists output. repeat split; assumption.
Qed.

Lemma select_loop_total sentences max_sentences :
  forall rounds tracker output,
    List.length tracker = rounds ->
    (rounds <= List.length sentences)%nat ->
    selection_ok sentences max_sentences output ->
    exists output',
      select_loop rounds sentences max_sentences tracker output = Ok output' /\
      selection_ok sentences max_sentences output'.
Proof.
  induction rounds as [|rounds IH]; intros tracker output Hlen Hle Hok.
  - exists output. split; [reflexivity | exact Hok].
  - rewrite select_loop_step.
    destruct (max_enumerate_spec tracker) as [i [x [Hmax Hnth]]].
    { intros ->. discriminate. }
    rewrite Hmax. simpl and_then. cbn [fst].
    assert (Hi : (i < List.length tracker)%nat).
    { apply nth_error_Some. congruence. }
    destruct (pick_spec sentences max_sentences output i) as [output1 [Hpick Hok1]];
      [lia | exact Hok |].
    rewrite Hpick. simpl and_then.
    destruct (len output1 >? max_sentences).
    + exists output1. split; [reflexivity | exact Hok1].
    + rewrite getitem_nat, Hnth. simpl and_then.
      destruct (list_remove_total x tracker i Hnth) as [tracker' [Hrm Hl]].
      rewrite Hrm. simpl and_then.
      apply IH; [lia | lia | exact Hok1].
Qed.

(** *** Restoring the order (lines 368-378) *)

Lemma leb_le (x y : nat) : NatOrder.leb x y = true <-> (x <= y)%nat.
Proof.
  revert y. induction x as [|x IH]; intros [|y]; simpl.
  - split; auto.
  - split; [lia | auto].
  - split; [discriminate | lia].
  - rewrite IH. lia.
Qed.

Lemma strongly_sorted_strict (l : list nat) :
  StronglySorted (fun x y => is_true (NatOrder.leb x y)) l ->
  NoDup l -> StronglySorted lt l.
Proof.
  induction 1 as [|a l _ IH Hall]; intros Hnd; constructor.
  - apply IH. inversion Hnd; assumption.
  - inversion Hnd as [|? ? Hnotin _]; subst.
    rewrite Forall_forall in *. intros x Hx.
    specialize (Hall x Hx). apply leb_le in Hall.
    assert (x <> a) by (intros ->; contradiction). lia.
Qed.

Lemma sort_strict (ps : list nat) :
  NoDup ps -> StronglySorted lt (NatSort.sort ps).
Proof.
  intros Hnd. apply strongly_sorted_strict.
  - apply NatSort.StronglySorted_sort.
    intros x y z Hxy Hyz. apply leb_le in Hxy. apply leb_le in Hyz.
    apply leb_le. lia.
  - eapply Permutation_NoDup; [apply NatSort.Permuted_sort | exact Hnd].
Qed.

Lemma strictly_sorted_nodup (l : list nat) : StronglySorted lt l -> NoDup l.
Proof.
  induction 1 as [|a l _ IH Hall]; constructor; [|assumption].
  intros Hin. rewrite Forall_forall in Hall. specialize (Hall a Hin). lia.
Qed.

Lemma list_index_nth (l : list string) :
  forall x i, list_index l x = Ok i -> nth_error l i = Some x.
Proof.
  induction l as [|y l IH]; intros x i; simpl; [discriminate|].
  destruct (String.eqb y x) eqn:E.
  - apply String.eqb_eq in E. intros H; inversion H; subst. reflexivity.
  - destruct (list_index l x) as [j|e] eqn:L; simpl; [|discriminate].
    intros H; inversion H; subst. simpl. apply IH. exact L.
Qed.

Lemma list_index_in (l : list string) (x : string) :
  In x l -> exists i, list_index l x = Ok i.
Proof.
  induction l as [|y l IH]; simpl; [tauto|]. intros Hin.
  destruct (String.eqb y x) eqn:E; [exists 0%nat; reflexivity|].
  destruct IH as [i Hi].
  - destruct Hin as [->|Hin]; [|exact Hin].
    rewrite String.eqb_refl in E. discriminate.
  - rewrite Hi. exists (S i). reflexivity.
Qed.

Lemma list_index_inj (l : list string) (x y : string) (i : nat) :
  list_index l x = Ok i -> list_index l y = Ok i -> x = y.
Proof.
  intros Hx Hy. apply list_index_nth in Hx. apply list_index_nth in Hy. congruence.
Qed.

Lemma Forall2_in_r {A B} (R : A -> B -> Prop) (l : list A) (l' : list B) (b : B) :
  Forall2 R l l' -> In b l' -> exists a, In a l /\ R a b.
Proof.
  induction 1 as [|a b' l l' Hab _ IH]; simpl; [tauto|].
  intros [->|Hin].
  - exists a. auto.
  - destruct (IH Hin) as [a' [Ha' Hr]]. exists a'. auto.
Qed.

Lemma Forall2_nodup {A B} (R : A -> B -> Prop) (l : list A) (l' : list B) :
  (forall a a' b, R a b -> R a' b -> a = a') ->
  Forall2 R l l' -> NoDup l -> NoDup l'.
Proof.
  intros Hinj. induction 1 as [|a b l l' Hab HF IH]; intros Hnd; constructor.
  - intros Hin. destruct (Forall2_in_r R l l' b HF Hin) as [a' [Ha' Hr]].
    assert (a = a') by (eapply Hinj; eassumption). subst a'.
    inversion Hnd; contradiction.
  - apply IH. inversion Hnd; assumption.
Qed.

Lemma Forall2_swap {A B} (R : A -> B -> Prop) (l : list A) (l' : list B) :
  Forall2 R l l' -> Forall2 (fun b a => R a b) l' l.
Proof. induction 1; constructor; assumption. Qed.

Lemma positions_spec (original : list string) :
  forall output,
    incl output original ->
    exists ps,
      positions original output = Ok ps /\
      Forall2 (fun o p => list_index original o = Ok p) output ps.
Proof.
  induction output as [|o output IH]; intros Hincl; simpl.
  - exists []. split; [reflexivity | constructor].
  - assert (Ho : In o original) by (apply Hincl; left; reflexivity).
    pose proof Ho as Hc. apply contains_true in Hc. rewrite Hc.
    destruct (list_index_in original o Ho) as [i Hi]. rewrite Hi. simpl and_then.
    destruct IH as [ps [Hps HF]].
    { intros x Hx. apply Hincl. right. exact Hx. }
    rewrite Hps. simpl and_then. exists (i :: ps).
    split; [reflexivity | constructor; assumption].
Qed.

Lemma located_flip (original : list string) (ps : list nat) (summary : list string) :
  Forall (fun p => exists s, getitem original (Z.of_nat p) = Ok s /\
                             list_index original s = Ok p) ps ->
  Forall2 (fun p s => getitem original (Z.of_nat p) = Ok s) ps summary ->
  Forall2 (fun s p => list_index original s = Ok p) summary ps.
Proof.
  intros Hall HF. induction HF as [|p s ps ss Hp _ IH]; constructor.
  - inversion Hall as [|? ? [s' [Hs' Hi]] _]; subst. congruence.
  - apply IH. inversion Hall; assumption.
Qed.

Lemma sort_sentences_spec (original output : list string) (out : list printed) :
  NoDup output -> incl output original ->
  exists summary ps,
    sort_sentences original output out = (Ok summary, out ++ [PrintList ps]) /\
    StronglySorted lt ps /\
    Forall2 (fun s p => list_index original s = Ok p) summary ps /\
    List.length summary = List.length output.
Proof.
  intros Hnd Hincl.
  destruct (positions_spec original output Hincl) as [ps0 [Hps HF0]].
  assert (Hnd0 : NoDup ps0).
  { eapply Forall2_nodup; [|exact HF0|exact Hnd].
    intros a a' b. apply list_index_inj. }
  pose proof (NatSort.Permuted_sort ps0) as Hperm.
  remember (NatSort.sort ps0) as ps eqn:Eps.
  assert (Hall : Forall (fun p => exists s, getitem original (Z.of_nat p) = Ok s /\
                                           list_index original s = Ok p) ps).
  { apply Forall_forall. intros p Hp.
    apply (Permutation_in _ (Permutation_sym Hperm)) in Hp.
    destruct (Forall2_in_r _ _ _ _ HF0 Hp) as [o [_ Ho]].
    exists o. split; [|exact Ho].
    rewrite getitem_nat, (list_index_nth _ _ _ Ho). reflexivity. }
  destruct (comprehension_total (fun i => getitem original (Z.of_nat i)) ps)
    as [summary [Hsum HF]].
  { eapply Forall_impl; [|exact Hall]. simpl. intros p [s [Hs _]]. eauto. }
  exists summary, ps. split; [|split; [|split]].
  - unfold sort_sentences, bind, lift, print, modify, ret.
    rewrite Hps, <- Eps, Hsum. reflexivity.
  - rewrite Eps. apply sort_strict. exact Hnd0.
  - apply located_flip; assumption.
  - rewrite <- (Forall2_length HF), <- (Permutation_length Hperm).
    symmetry. exact (Forall2_length HF0).
Qed.

Section Summarizer.

Variable sent_tokenize : string -> list string.
Variable word_tokenize : string -> list string.
Variable stopwords_english : list string.

Local Abbreviation filtered_words := (filtered_words word_tokenize stopwords_english).
Local Abbreviation word_frequency_table :=
  (word_frequency_table word_tokenize stopwords_english).
Local Abbreviation tracker_of :=
  (tracker_of sent_tokenize word_tokenize stopwords_english).
Local Abbreviation get_summary :=
  (get_summary sent_tokenize word_tokenize stopwords_english).

(** The table exists for every input, whatever the words. *)
Lemma word_frequency_table_spec (input : string) :
  let filtered := filtered_words input in
  exists counts,
    count_words filtered [] = Ok counts /\
    word_frequency_table input
    = Ok (map (divide_entry (len filtered)) counts) /\
    NoDup (keys counts) /\
    (forall w, In w (keys counts) <-> In w filtered) /\
    (forall w, (value_of counts w
                == inject_Z (Z.of_nat (count_occ string_dec filtered w)))%Q).
Proof.
  intros filtered.
  destruct (count_words_spec filtered []) as [counts [Hc [Hnd [Hk Hv]]]];
    [constructor|].
  exists counts. split; [exact Hc|]. split; [|split; [exact Hnd|split]].
  - unfold Summarize.word_frequency_table. fold filtered. rewrite Hc.
    simpl and_then. apply normalize_exact; [exact Hnd|].
    intros Hne. pose proof (count_words_nonempty _ _ Hc Hne). lia.
  - intros w. rewrite Hk. simpl. tauto.
  - intros w. rewrite Hv. unfold value_of. simpl. ring.
Qed.

Lemma get_summary_phases (input : string) (max_sentences : Z)
      (out : list printed) (tracker : list Q) :
  tracker_of input = Ok tracker ->
  get_summary input max_sentences out
  = select_and_sort (sent_tokenize input) max_sentences tracker
      (if max_sentences >? len (sent_tokenize input)
       then out ++ [PrintStr warning_message] else out).
Proof.
  unfold Summarize.tracker_of, Summarize.word_frequency_table,
    Summarize.get_summary, select_and_sort.
  intros H. unfold bind at 1.
  destruct (max_sentences >? len (sent_tokenize input));
    unfold print, modify, ret; cbv beta iota;
    unfold bind, lift;
    destruct (count_words (filtered_words input) []) as [counts|e];
      try discriminate; simpl and_then in H;
    destruct (normalize counts (len (filtered_words input))) as [table|e];
      try discriminate; simpl and_then in H;
    rewrite H; reflexivity.
Qed.

Lemma tracker_of_total (input : string) :
  exists tracker,
    tracker_of input = Ok tracker /\
    List.length tracker = List.length (sent_tokenize input).
Proof.
  destruct (word_frequency_table_spec input) as [counts [_ [Ht _]]].
  destruct (comprehension_total
              (fun sentence =>
                 score_loop (keys (map (divide_entry (len (filtered_words input)))
                                       counts))
                            (map (divide_entry (len (filtered_words input))) counts)
                            sentence 0%Q)
              (sent_tokenize input)) as [tracker [Htr HF]].
  { apply Forall_forall. intros sentence _.
    destruct (score_loop_spec
                (map (divide_entry (len (filtered_words input))) counts)
                sentence _ 0%Q (incl_refl _)) as [r [Hr _]].
    exists r. exact Hr. }
  exists tracker. split.
  - unfold Summarize.tracker_of. rewrite Ht. exact Htr.
  - symmetry. exact (Forall2_length HF).
Qed.

(** [get_summary] returns on every input: distinct sentences of the
    input, no more than asked for, at ascending positions. *)
Lemma get_summary_returns (input : string) (max_sentences : Z)
      (out : list printed) :
  exists summary ps,
    get_summary input max_sentences out
    = (Ok summary,
       (if max_sentences >? len (sent_tokenize input)
        then out ++ [PrintStr warning_message] else out) ++ [PrintList ps]) /\
    StronglySorted lt ps /\
    Forall2 (fun s p => list_index (sent_tokenize input) s = Ok p) summary ps /\
    NoDup summary /\
    len summary <= Z.max 0 max_sentences.
Proof.
  destruct (tracker_of_total input) as [tracker [Htr Hlen]].
  rewrite (get_summary_phases input max_sentences out tracker Htr).
  destruct (select_loop_total (sent_tokenize input) max_sentences
              (List.length tracker) tracker [])
    as [output [Hsel [Hnd [Hincl Hmax]]]];
    [reflexivity | lia | |].
  { split; [constructor|]. split; [intros x []|]. unfold len. simpl. lia. }
  destruct (sort_sentences_spec (sent_tokenize input) output
              (if max_sentences >? len (sent_tokenize input)
               then out ++ [PrintStr warning_message] else out) Hnd Hincl)
    as [summary [ps [Hsort [Hsorted [HF Hl]]]]].
  exists summary, ps. split; [|split; [exact Hsorted|split; [exact HF|split]]].
  - unfold select_and_sort, bind, lift. rewrite Hsel. exact Hsort.
  - apply (Forall2_nodup (fun p s => list_index (sent_tokenize input) s = Ok p)
             ps summary).
    + intros p p' s Hp Hp'. congruence.
    + apply Forall2_swap in HF. exact HF.
    + apply strictly_sorted_nodup. exact Hsorted.
  - unfold len in *. rewrite Hl. exact Hmax.
Qed.

(** C8. Whatever the input, [get_summary] returns; every sentence it
    returns is one of the original sentences, and the positions at which
    [list.index] finds the returned sentences in the original sequence
    are strictly ascending. *)
Theorem summary_in_document_order (input : string) (max_sentences : Z)
    (out : list printed) :
  exists summary out',
    get_summary input max_sentences out = (Ok summary, out') /\
    Forall (fun s => In s (sent_tokenize input)) summary /\
    exists ps,
      Forall2 (fun s p => list_index (sent_tokenize input) s = Ok p) summary ps /\
      StronglySorted lt ps.
Proof.
  destruct (get_summary_returns input max_sentences out)
    as [summary [ps [Hrun [Hsorted [HF _]]]]].
  exists summary. eexists. split; [exact Hrun|]. split.
  - clear Hrun Hsorted. induction HF as [|s p ss ps Hs _ IH]; constructor.
    + apply list_index_nth in Hs. eapply nth_error_In. exact Hs.
    + exact IH.
  - exists ps. split; assumption.
Qed.

(** C10. The table of counts is empty unless there is at least one
    filtered word; normalising divides every entry once, by a total
    that is then not zero, and on an empty table divides nothing; so no
    call of [get_summary] ends in [ZeroDivisionError]. *)
Theorem normalization_never_divides_by_zero (input : string) :
  let filtered := filtered_words input in
  exists counts,
    count_words filtered [] = Ok counts /\
    (filtered = [] -> counts = []) /\
    (counts <> [] -> 1 <= len filtered) /\
    normalize counts (len filtered)
    = Ok (map (divide_entry (len filtered)) counts) /\
    forall max_sentences out,
      fst (get_summary input max_sentences out) <> Raise ZeroDivisionError.
Proof.
  intros filtered.
  destruct (count_words_spec filtered []) as [counts [Hc [Hnd _]]];
    [constructor|].
  exists counts. split; [exact Hc|]. split; [|split; [|split]].
  - intros E. rewrite E in Hc. simpl in Hc. congruence.
  - apply count_words_nonempty. exact Hc.
  - apply normalize_exact; [exact Hnd|].
    intros Hne. pose proof (count_words_nonempty _ _ Hc Hne). lia.
  - intros max_sentences out.
    destruct (get_summary_returns input max_sentences out)
      as [summary [ps [Hrun _]]].
    rewrite Hrun. simpl. discriminate.
Qed.

End Summarizer.

(** C6. On "The cat sat still. The dog ran. The cat slept." the scores are
    4/7, 2/7 and 3/7. With [max_sentences = 2] the greedy choice is the
    first and the third sentence; [get_summary] returns the first and the
    second, the lowest-scoring one: after the first removal the index of
    the maximum is an index into the shortened [tracker], and the code
    uses it on [sentences_original]. On the three cat sentences it
    returns one sentence where two were asked for. *)
Theorem get_summary_picks_by_shifted_index :
  (exists tracker,
     Reference.tracker_of Reference.cat_dog_cat = Ok tracker /\
     Forall2 Qeq tracker [4 # 7; 2 # 7; 3 # 7]%Q /\
     greedy_summary (Reference.sent_tokenize Reference.cat_dog_cat) 2 tracker
     = ["The cat sat still."; "The cat slept."]) /\
  Reference.get_summary Reference.cat_dog_cat 2
  = (Ok ["The cat sat still."; "The dog ran."], [PrintList [0; 1]%nat]) /\
  (exists tracker,
     Reference.tracker_of Reference.cats = Ok tracker /\
     Forall2 Qeq tracker [1 # 2; 1 # 2; 1 # 3]%Q /\
     greedy_summary (Reference.sent_tokenize Reference.cats) 2 tracker
     = ["The cat sat."; "The cat ran."]) /\
  Reference.get_summary Reference.cats 2
  = (Ok ["The cat sat."], [PrintList [0%nat]]).
Proof.
  split; [|split; [|split]].
  - eexists. split; [vm_compute; reflexivity|].
    split; [repeat constructor; vm_compute; reflexivity | vm_compute; reflexivity].
  - vm_compute. reflexivity.
  - eexists. split; [vm_compute; reflexivity|].
    split; [repeat constructor; vm_compute; reflexivity | vm_compute; reflexivity].
  - vm_compute. reflexivity.
Qed.

(** C9. "The cat sat. The cat ran. The dog slept." has three sentences.
    With [max_sentences = 5], [get_summary] prints the warning, does not
    raise, and returns the first sentence alone, not all three. *)
Theorem get_summary_drops_available_sentences :
  Reference.sent_tokenize Reference.cats
  = ["The cat sat."; "The cat ran."; "The dog slept."] /\
  Reference.get_summary Reference.cats 5
  = (Ok ["The cat sat."], [PrintStr warning_message; PrintList [0%nat]]) /\
  fst (Reference.get_summary Reference.cats 5)
  <> Ok (Reference.sent_tokenize Reference.cats).
Proof.
  split; [vm_compute; reflexivity|].
  split; [vm_compute; reflexivity|].
  vm_compute. discriminate.
Qed.

End SummarizeFacts.

(* ================================================================== *)
(** * The table and the scores of [get_summary] *)
(* ================================================================== *)

Module FrequencyFacts.

Import Summarize.
Import Frequencies PyFacts DictFacts.

Lemma dict_mem_contains {V} (d : dict V) (w : string) :
  dict_mem d w = contains (keys d) w.
Proof.
  unfold dict_mem, contains, keys.
  induction d as [|kv d IH]; simpl; [reflexivity|]. rewrite IH. reflexivity.
Qed.

Lemma dict_get_ok_key {V} (d : dict V) (w : string) (v : V) :
  dict_get d w = Ok v -> In w (keys d).
Proof.
  intros H. apply dict_get_ok_in in H. unfold keys. apply in_map_iff.
  exists (w, v). split; [reflexivity | exact H].
Qed.

Lemma distinct_from_in (words : list string) :
  forall seen w, In w (distinct_from seen words) <-> In w seen \/ In w words.
Proof.
  induction words as [|a words IH]; intros seen w; simpl; [tauto|].
  rewrite IH. destruct (contains seen a) eqn:C.
  - apply contains_true in C. split; [tauto|].
    intros [H|[H|H]]; subst; auto.
  - rewrite in_app_iff. simpl. tauto.
Qed.

Lemma distinct_from_nodup (words : list string) :
  forall seen, NoDup seen -> NoDup (distinct_from seen words).
Proof.
  induction words as [|a words IH]; intros seen Hnd; simpl; [exact Hnd|].
  apply IH. destruct (contains seen a) eqn:C; [exact Hnd|].
  apply contains_false in C.
  apply NoDup_app; [exact Hnd | repeat constructor; simpl; tauto |].
  intros x Hx [E|[]]. subst. contradiction.
Qed.

Lemma comprehension_map {A B} (f : A -> result B) (g : A -> B) (l : list A) :
  (forall a, f a = Ok (g a)) -> comprehension f l = Ok (map g l).
Proof.
  intros H. induction l as [|a l IH]; simpl; [reflexivity|].
  rewrite H, IH. reflexivity.
Qed.

Section Arithmetic.

Variable F : Type.
Variables zero one : F.
Variable add : F -> F -> F.
Variable div_int : F -> Z -> F.
Variable lower : string -> string.
Variable sent_tokenize : string -> list string.
Variable word_tokenize : string -> list string.
Variable stopwords_english : list string.

Local Abbreviation count_words := (count_words F one add).
Local Abbreviation counted := (counted F zero one add).
Local Abbreviation normalize_loop := (normalize_loop F div_int).
Local Abbreviation normalize := (normalize F div_int).
Local Abbreviation score_loop := (score_loop F add).
Local Abbreviation scores := (scores F zero add).
Local Abbreviation sum_of := (sum_of F zero add).
Local Abbreviation values_in := (values_in F).
Local Abbreviation filtered_words :=
  (filtered_words lower word_tokenize stopwords_english).
Local Abbreviation word_frequency_table :=
  (word_frequency_table F one add div_int lower word_tokenize stopwords_english).
Local Abbreviation tracker_of :=
  (tracker_of F zero one add div_int lower sent_tokenize word_tokenize
     stopwords_english).

(** *** Counting (lines 347-351) *)

Lemma iter_counted (n : nat) :
  Nat.iter n (fun x => add x one) one = counted (S n).
Proof.
  induction n as [|n IH]; [reflexivity|].
  rewrite Nat.iter_succ, IH. reflexivity.
Qed.

Lemma iter_shift (n : nat) (v : F) :
  Nat.iter n (fun x => add x one) (add v one)
  = Nat.iter (S n) (fun x => add x one) v.
Proof.
  exact (eq_sym (Nat.iter_succ_r n F (fun x => add x one) v)).
Qed.

Lemma count_words_exact (filtered : list string) :
  forall d,
  exists d',
    count_words filtered d = Ok d' /\
    keys d' = distinct_from (keys d) filtered /\
    (forall w v, dict_get d w = Ok v ->
       dict_get d' w
       = Ok (Nat.iter (count_occ string_dec filtered w) (fun x => add x one) v)) /\
    (forall w, ~ In w (keys d) -> In w filtered ->
       dict_get d' w = Ok (counted (count_occ string_dec filtered w))).
Proof.
  induction filtered as [|a rest IH]; intros d.
  - exists d. split; [reflexivity|]. split; [reflexivity|]. split.
    + intros w v H. exact H.
    + intros w _ [].
  - cbn [Frequencies.count_words distinct_from].
    rewrite dict_mem_contains.
    destruct (contains (keys d) a) eqn:C.
    + apply contains_true in C. destruct (dict_get_in d a C) as [v0 Hv0].
      rewrite Hv0. simpl and_then.
      destruct (IH (dict_set d a (add v0 one))) as [d' [Hc [Hk [Hold Hnew]]]].
      rewrite keys_set_in in Hk, Hnew by exact C.
      exists d'. split; [exact Hc|]. split; [exact Hk|]. split.
      * intros w v Hw. cbn [count_occ].
        destruct (string_dec a w) as [->|Hne].
        -- assert (v = v0) by congruence. subst v.
           rewrite <- iter_shift. apply Hold. apply dict_get_set_same.
        -- apply Hold. rewrite dict_get_set_other by exact Hne. exact Hw.
      * intros w Hw [E|Hin]; [subst; contradiction|].
        cbn [count_occ]. destruct (string_dec a w) as [->|Hne]; [contradiction|].
        apply Hnew; assumption.
    + apply contains_false in C.
      destruct (IH (dict_set d a one)) as [d' [Hc [Hk [Hold Hnew]]]].
      rewrite keys_set_new in Hk, Hnew by exact C.
      exists d'. split; [exact Hc|]. split; [exact Hk|]. split.
      * intros w v Hw. cbn [count_occ].
        destruct (string_dec a w) as [->|Hne].
        -- exfalso. apply C. eapply dict_get_ok_key. exact Hw.
        -- apply Hold. rewrite dict_get_set_other by exact Hne. exact Hw.
      * intros w Hw Hin. cbn [count_occ].
        destruct (string_dec a w) as [->|Hne].
        -- rewrite <- iter_counted. apply Hold. apply dict_get_set_same.
        -- destruct Hin as [E|Hin]; [contradiction|].
           apply Hnew; [|exact Hin].
           rewrite in_app_iff. simpl. intros [H|[H|[]]]; auto.
Qed.

(** *** Normalising (lines 352-353) *)

Lemma normalize_loop_divides (total_words : Z) :
  total_words <> 0 ->
  forall suf pre,
    NoDup (keys (pre ++ suf)) ->
    normalize_loop (keys suf) (pre ++ suf) total_words
    = Ok (pre ++ map (fun kv => (fst kv, div_int (snd kv) total_words)) suf).
Proof.
  intros Hne. induction suf as [|[k v] suf IH]; intros pre Hnd.
  - simpl. rewrite app_nil_r. reflexivity.
  - assert (Hk : ~ In k (keys pre)).
    { unfold keys in *. rewrite map_app in Hnd. simpl in Hnd.
      apply NoDup_remove_2 in Hnd. rewrite in_app_iff in Hnd. tauto. }
    cbn [keys map fst Frequencies.normalize_loop].
    rewrite dict_get_skip by assumption. simpl dict_get. rewrite String.eqb_refl.
    simpl and_then. unfold Frequencies.truediv.
    apply Z.eqb_neq in Hne. rewrite Hne. simpl and_then.
    rewrite dict_set_skip by assumption. simpl dict_set. rewrite String.eqb_refl.
    change (pre ++ (k, div_int v total_words) :: suf)
      with (pre ++ [(k, div_int v total_words)] ++ suf).
    rewrite app_assoc.
    change (map fst suf) with (keys suf). rewrite IH.
    + rewrite <- app_assoc. reflexivity.
    + rewrite <- app_assoc. unfold keys in *. rewrite map_app in *. exact Hnd.
Qed.

Lemma normalize_divides_each_entry (counts : dict F) (total_words : Z) :
  NoDup (keys counts) -> (counts <> [] -> total_words <> 0) ->
  normalize counts total_words
  = Ok (map (fun kv => (fst kv, div_int (snd kv) total_words)) counts).
Proof.
  intros Hnd Hne. unfold Frequencies.normalize. destruct counts as [|kv counts].
  - reflexivity.
  - apply (normalize_loop_divides total_words) with (pre := []).
    + apply Hne. discriminate.
    + exact Hnd.
Qed.

(** *** Scoring (lines 354-358) *)

Lemma score_loop_exact (sentence : string) :
  forall suf pre acc,
    NoDup (keys (pre ++ suf)) ->
    score_loop (keys suf) (pre ++ suf) sentence acc
    = Ok (fold_left add
            (map snd (filter (fun kv => substring_of (fst kv) sentence) suf))
            acc).
Proof.
  induction suf as [|[k v] suf IH]; intros pre acc Hnd.
  - reflexivity.
  - assert (Hk : ~ In k (keys pre)).
    { unfold keys in *. rewrite map_app in Hnd. simpl in Hnd.
      apply NoDup_remove_2 in Hnd. rewrite in_app_iff in Hnd. tauto. }
    assert (Hnd' : NoDup (keys ((pre ++ [(k, v)]) ++ suf))).
    { rewrite <- app_assoc. exact Hnd. }
    cbn [keys map fst filter Frequencies.score_loop].
    change (map fst suf) with (keys suf).
    change (pre ++ (k, v) :: suf) with (pre ++ [(k, v)] ++ suf).
    rewrite app_assoc.
    destruct (substring_of k sentence).
    + rewrite <- app_assoc at 1. rewrite dict_get_skip by assumption.
      simpl dict_get. rewrite String.eqb_refl. simpl and_then.
      rewrite (IH _ _ Hnd'). reflexivity.
    + rewrite (IH _ _ Hnd'). reflexivity.
Qed.

(** The table and the scores, for every input. *)
Lemma table_and_tracker (input : string) :
  let words := filtered_words input in
  exists table,
    word_frequency_table input = Ok table /\
    tracker_of input
    = Ok (map (fun sentence => sum_of (values_in table sentence))
              (sent_tokenize input)) /\
    keys table = distinct words /\
    (forall w, In w words ->
       dict_get table w
       = Ok (div_int (counted (count_occ string_dec words w)) (len words))).
Proof.
  intros words.
  destruct (count_words_exact words []) as [counts [Hc [Hk [_ Hnew]]]].
  change (keys []) with (@nil string) in Hk, Hnew.
  assert (Hnd : NoDup (keys counts)).
  { rewrite Hk. apply distinct_from_nodup. constructor. }
  set (table := map (fun kv => (fst kv, div_int (snd kv) (len words))) counts).
  assert (Hkeys : keys table = keys counts).
  { apply (keys_map (fun v => div_int v (len words))). }
  assert (Ht : word_frequency_table input = Ok table).
  { unfold Frequencies.word_frequency_table. fold words. rewrite Hc.
    simpl and_then. apply normalize_divides_each_entry; [exact Hnd|].
    intros Hne. destruct words as [|w ws].
    - simpl in Hc. congruence.
    - unfold len. simpl List.length. lia. }
  exists table. split; [exact Ht|]. split; [|split].
  - unfold Frequencies.tracker_of. rewrite Ht. simpl and_then.
    unfold Frequencies.scores. apply comprehension_map.
    intros sentence. apply (score_loop_exact sentence table [] zero).
    simpl app. rewrite Hkeys. exact Hnd.
  - rewrite Hkeys. exact Hk.
  - intros w Hw. unfold table.
    rewrite (dict_get_map (fun v => div_int v (len words))).
    rewrite (Hnew w); [reflexivity | intros [] | exact Hw].
Qed.

(** C7. In any arithmetic, for every input and whatever the tokenizers:
    with [words] the tokens of the lowercased input that are neither stop
    words nor punctuation marks, the keys of the table are the distinct
    [words]; the value the table holds for a word is the count of its
    occurrences in [words], as the code counts (1.0, then + 1.0 at each
    further occurrence), divided by the number of [words]; and the score
    of each sentence is the sum, taken from 0.0 in the order of the table,
    of the values of the entries whose word is a substring of the
    sentence. Neither step raises. *)
Theorem table_holds_frequencies_and_scores_add_them (input : string) :
  let words :=
    filter (fun w => negb (contains stopwords_english w) && negb (in_punc w))
           (word_tokenize (lower (strip tab_newline input))) in
  exists table tracker,
    word_frequency_table input = Ok table /\
    tracker_of input = Ok tracker /\
    keys table = distinct words /\
    (forall w, In w words ->
       dict_get table w
       = Ok (div_int (counted (count_occ string_dec words w)) (len words))) /\
    tracker
    = map (fun sentence =>
             sum_of (map snd (filter (fun kv => substring_of (fst kv) sentence)
                                     table)))
          (sent_tokenize input).
Proof.
  intros words.
  destruct (table_and_tracker input) as [table [Ht [Htr [Hk Hv]]]].
  exists table. eexists.
  split; [exact Ht|]. split; [exact Htr|]. split; [exact Hk|].
  split; [exact Hv | reflexivity].
Qed.

(** X17. In any arithmetic, for every input: the table has one entry for
    each word left after filtering and no other, no key twice, and no key
    is a stop word or a punctuation mark; [tracker] has one score for each
    sentence of the input. Building them raises nothing. *)
Theorem table_has_one_entry_per_word (input : string) :
  exists table tracker,
    word_frequency_table input = Ok table /\
    tracker_of input = Ok tracker /\
    NoDup (keys table) /\
    (forall w, In w (keys table) <-> In w (filtered_words input)) /\
    (forall w, In w (keys table) ->
               contains stopwords_english w = false /\ in_punc w = false) /\
    List.length tracker = List.length (sent_tokenize input).
Proof.
  destruct (table_and_tracker input) as [table [Ht [Htr [Hk _]]]].
  assert (Hin : forall w, In w (keys table) <-> In w (filtered_words input)).
  { intros w. rewrite Hk. unfold distinct. rewrite distinct_from_in.
    simpl. tauto. }
  exists table. eexists.
  split; [exact Ht|]. split; [exact Htr|]. split; [|split; [exact Hin|split]].
  - rewrite Hk. apply distinct_from_nodup. constructor.
  - intros w Hw. apply Hin in Hw.
    unfold Frequencies.filtered_words in Hw.
    apply filter_In in Hw. destruct Hw as [_ Hw].
    apply andb_true_iff in Hw. destruct Hw as [H1 H2].
    apply negb_true_iff in H1. apply negb_true_iff in H2. split; assumption.
  - apply length_map.
Qed.

End Arithmetic.

(** The table and the scores of [Summarize] are those of [Frequencies] at
    the rationals, with [Py.lower]. *)
Lemma rational_count_words (filtered : list string) :
  forall d,
    Summarize.count_words filtered d
    = Frequencies.count_words Q 1%Q Qplus filtered d.
Proof.
  induction filtered as [|w rest IH]; intros d; simpl; [reflexivity|].
  destruct (dict_mem d w).
  - destruct (dict_get d w); simpl; [apply IH | reflexivity].
  - apply IH.
Qed.

Lemma rational_normalize_loop (total_words : Z) (words : list string) :
  forall d,
    Summarize.normalize_loop words d total_words
    = Frequencies.normalize_loop Q (fun x n => (x / inject_Z n)%Q) words d
        total_words.
Proof.
  induction words as [|w rest IH]; intros d; simpl; [reflexivity|].
  destruct (dict_get d w); simpl; [|reflexivity].
  unfold Summarize.truediv, Frequencies.truediv.
  destruct (total_words =? 0); simpl; [reflexivity | apply IH].
Qed.

Lemma rational_score_loop (d : dict Q) (sentence : string) (words : list string) :
  forall acc,
    Summarize.score_loop words d sentence acc
    = Frequencies.score_loop Q Qplus words d sentence acc.
Proof.
  induction words as [|w rest IH]; intros acc; simpl; [reflexivity|].
  destruct (substring_of w sentence); [|apply IH].
  destruct (dict_get d w); simpl; [apply IH | reflexivity].
Qed.

Lemma rational_table (word_tokenize : string -> list string)
    (stopwords_english : list string) (input : string) :
  Summarize.word_frequency_table word_tokenize stopwords_english input
  = Frequencies.word_frequency_table Q 1%Q Qplus
      (fun x n => (x / inject_Z n)%Q) Py.lower word_tokenize stopwords_english
      input.
Proof.
  unfold Summarize.word_frequency_table, Frequencies.word_frequency_table.
  change (Frequencies.filtered_words Py.lower word_tokenize stopwords_english input)
    with (Summarize.filtered_words word_tokenize stopwords_english input).
  rewrite rational_count_words.
  destruct (Frequencies.count_words Q 1%Q Qplus
              (Summarize.filtered_words word_tokenize stopwords_english input) [])
    as [counts|e]; simpl; [|reflexivity].
  apply rational_normalize_loop.
Qed.

Lemma rational_tracker (sent_tokenize word_tokenize : string -> list string)
    (stopwords_english : list string) (input : string) :
  Summarize.tracker_of sent_tokenize word_tokenize stopwords_english input
  = Frequencies.tracker_of Q 0%Q 1%Q Qplus (fun x n => (x / inject_Z n)%Q)
      Py.lower sent_tokenize word_tokenize stopwords_english input.
Proof.
  unfold Summarize.tracker_of, Frequencies.tracker_of.
  rewrite rational_table.
  destruct (Frequencies.word_frequency_table Q 1%Q Qplus
              (fun x n => (x / inject_Z n)%Q) Py.lower word_tokenize
              stopwords_english input) as [table|e]; simpl; [|reflexivity].
  unfold Summarize.scores, Frequencies.scores.
  induction (sent_tokenize input) as [|s ss IH]; simpl; [reflexivity|].
  rewrite rational_score_loop, IH. reflexivity.
Qed.

(** In the rationals the count the code holds is the number of
    occurrences. *)
Lemma counted_rational (n : nat) :
  (Frequencies.counted Q 0%Q 1%Q Qplus n == inject_Z (Z.of_nat n))%Q.
Proof.
  induction n as [|n IH]; [reflexivity|].
  destruct n as [|n]; [reflexivity|].
  change (Frequencies.counted Q 0%Q 1%Q Qplus (S (S n)))
    with (Frequencies.counted Q 0%Q 1%Q Qplus (S n) + 1)%Q.
  rewrite IH, (SummarizeFacts.inject_succ (S n)). reflexivity.
Qed.

(** In doubles, on "An ant ant ant. The bee cow cow. The dog elk. The fox
    gnu.": ten words are left after filtering; "ant" holds 3.0/10 and the
    first sentence scores that; the second sentence scores the double sum
    of 1.0/10 and 2.0/10, which is larger. In the rationals the two scores
    are equal. *)
Lemma scores_in_doubles :
  let tenth := Doubles.div_int 1 10 in
  let fifth := Doubles.div_int 2 10 in
  Doubles.word_frequency_table Doubles.ant_bee_cow
  = Ok [("ant", Doubles.div_int 3 10); ("bee", tenth); ("cow", fifth);
        ("dog", tenth); ("elk", tenth); ("fox", tenth); ("gnu", tenth)] /\
  Doubles.tracker_of Doubles.ant_bee_cow
  = Ok [PrimFloat.add 0 (Doubles.div_int 3 10);
        PrimFloat.add (PrimFloat.add 0 tenth) fifth;
        PrimFloat.add (PrimFloat.add 0 tenth) tenth;
        PrimFloat.add (PrimFloat.add 0 tenth) tenth] /\
  PrimFloat.ltb (PrimFloat.add 0 (Doubles.div_int 3 10))
                (PrimFloat.add (PrimFloat.add 0 tenth) fifth) = true /\
  exists tracker,
    Reference.tracker_of Doubles.ant_bee_cow = Ok tracker /\
    Forall2 Qeq tracker [3 # 10; 3 # 10; 2 # 10; 2 # 10]%Q.
Proof.
  split; [vm_compute; reflexivity|]. split; [vm_compute; reflexivity|].
  split; [vm_compute; reflexivity|].
  eexists. split; [vm_compute; reflexivity|].
  repeat constructor; vm_compute; reflexivity.
Qed.

(** The two documents on which the selection is run have, in
    doubles, scores in the order the rationals give them: 4/7 > 3/7 > 2/7
    for the first, 1/2 = 1/2 > 1/3 for the second. *)
Lemma cat_scores_in_doubles :
  (exists a b c,
     Doubles.tracker_of Reference.cat_dog_cat = Ok [a; b; c] /\
     PrimFloat.ltb b c = true /\ PrimFloat.ltb c a = true) /\
  (exists a b c,
     Doubles.tracker_of Reference.cats = Ok [a; b; c] /\
     PrimFloat.eqb a b = true /\ PrimFloat.ltb c a = true).
Proof.
  split; do 3 eexists;
    (split; [vm_compute; reflexivity | split; vm_compute; reflexivity]).
Qed.

End FrequencyFacts.

(* ================================================================== *)
(** ** More about ModelProcessor: the two entry points *)
(* ================================================================== *)

Module FacadeFacts.

Import ModelProcessor PyFacts ProcessorFacts.

Lemma prefix_append (s t : string) : String.prefix s (String.append s t) = true.
Proof.
  induction s as [|c s IH]; simpl.
  - destruct t; reflexivity.
  - destruct (ascii_dec c c); [exact IH | congruence].
Qed.

Lemma prefix_refl (s : string) : String.prefix s s = true.
Proof.
  induction s as [|c s IH]; simpl; [reflexivity|].
  destruct (ascii_dec c c); [exact IH | congruence].
Qed.

Lemma prefix_join (sep s0 : string) (rest : list string) :
  String.prefix s0 (join sep (s0 :: rest)) = true.
Proof.
  unfold join. destruct rest as [|s1 rest]; simpl.
  - apply prefix_refl.
  - apply prefix_append.
Qed.

Lemma force_first_length (use_first : bool) (args : list Z) :
  (List.length args <= List.length (force_first use_first args)
   <= S (List.length args))%nat.
Proof.
  destruct use_first; simpl; [|lia].
  destruct args as [|first rest]; simpl; [lia|].
  destruct (first =? 0); simpl; lia.
Qed.

Section Facade.

Context {World Vec : Type}.
Variable cluster :
  list Vec -> string -> Z -> Q -> option Z -> World -> result (list Z) * World.
Variables np_mean np_min np_median np_max : list Vec -> result Vec.

Local Abbreviation run := (run cluster).
Local Abbreviation run_embeddings :=
  (run_embeddings cluster np_mean np_min np_median np_max).
Local Abbreviation cluster_runner := (cluster_runner cluster).

Lemma cluster_runner_model_raises (self : t World Vec) content ratio algorithm
      use_first num_sentences w tr e w1 :
  model self content (hidden self) (reduce_option self) w = (Raise e, w1) ->
  cluster_runner self content ratio algorithm use_first num_sentences (w, tr)
  = (Raise e, (w1, tr ++ [EvEmbed])).
Proof.
  intros Hm. unfold ModelProcessor.cluster_runner, bind, call.
  rewrite Hm. reflexivity.
Qed.

Lemma cluster_runner_cluster_raises (self : t World Vec) content ratio algorithm
      use_first num_sentences w tr hid w1 e w2 :
  model self content (hidden self) (reduce_option self) w = (Ok hid, w1) ->
  cluster hid algorithm (random_state self) ratio num_sentences w1 = (Raise e, w2) ->
  cluster_runner self content ratio algorithm use_first num_sentences (w, tr)
  = (Raise e, (w2, tr ++ [EvEmbed; EvCluster])).
Proof.
  intros Hm Hc. unfold ModelProcessor.cluster_runner, bind, call.
  rewrite Hm.
  replace (match num_sentences with
           | Some n => Some (if use_first then n else n)
           | None => None
           end) with num_sentences
    by (destruct num_sentences; destruct use_first; reflexivity).
  rewrite Hc, <- app_assoc. reflexivity.
Qed.

(** [run] on a body with sentences: what [cluster_runner] does, then the
    join. *)
Lemma run_eq (self : t World Vec) body ratio min_length max_length use_first
      algorithm num_sentences w tr sentences w0 r st :
  sentence_handler self body min_length max_length w = (Ok sentences, w0) ->
  sentences <> [] ->
  cluster_runner self sentences ratio algorithm use_first num_sentences
    (w0, tr ++ [EvSegment]) = (r, st) ->
  run self body ratio min_length max_length use_first algorithm num_sentences
    (w, tr)
  = (match r with Ok sel => Ok (join " " (fst sel)) | Raise e => Raise e end, st).
Proof.
  intros Hseg Hne Hrun.
  unfold ModelProcessor.run, run_clusters, bind, call. rewrite Hseg.
  destruct sentences as [|s0 rest]; [contradiction|].
  change (truthy (s0 :: rest)) with true. cbv beta iota.
  rewrite Hrun. destruct r; reflexivity.
Qed.

Lemma run_embeddings_eq (self : t World Vec) body ratio min_length max_length
      use_first algorithm num_sentences aggregate w tr sentences w0 e st :
  sentence_handler self body min_length max_length w = (Ok sentences, w0) ->
  sentences <> [] ->
  cluster_runner self sentences ratio algorithm use_first num_sentences
    (w0, tr ++ [EvSegment]) = (Raise e, st) ->
  run_embeddings self body ratio min_length max_length use_first algorithm
    num_sentences aggregate (w, tr)
  = (Raise e, st).
Proof.
  intros Hseg Hne Hrun.
  unfold ModelProcessor.run_embeddings, retrieve_summarized_embeddings, bind, call.
  rewrite Hseg.
  destruct sentences as [|s0 rest]; [contradiction|].
  change (truthy (s0 :: rest)) with true. cbv beta iota.
  rewrite Hrun. reflexivity.
Qed.

(** X1. What [cluster_runner] returns is paired by index: sentence [i] and
    embedding [i] are the content and the hidden state at the same
    selected index, so there are as many embeddings as sentences. Their
    number is the number of indices the clustering step answered, or one
    more when [use_first] had to put 0 in front; without [use_first] it is
    exactly that number. The only exception the call itself raises is
    [IndexError]. *)
Theorem selection_is_paired_and_counted
    (self : t World Vec) content ratio algorithm use_first num_sentences w tr
    hid w1 args w2 :
  model self content (hidden self) (reduce_option self) w = (Ok hid, w1) ->
  cluster hid algorithm (random_state self) ratio num_sentences w1 = (Ok args, w2) ->
  match fst (cluster_runner self content ratio algorithm use_first
               num_sentences (w, tr)) with
  | Ok (sentences, embeddings) =>
      Forall2 (fun j s => getitem content j = Ok s)
              (force_first use_first args) sentences /\
      Forall2 (fun j e => getitem hid j = Ok e)
              (force_first use_first args) embeddings /\
      List.length sentences = List.length embeddings /\
      (List.length args <= List.length sentences <= S (List.length args))%nat /\
      (use_first = false -> List.length sentences = List.length args)
  | Raise e => e = IndexError
  end.
Proof.
  intros Hm Hc.
  rewrite (cluster_runner_eq cluster self content ratio algorithm use_first
             num_sentences w tr hid w1 args w2 Hm Hc).
  simpl fst. unfold gather, and_then.
  destruct (comprehension (getitem content) _) as [sentences|e] eqn:Cs.
  - destruct (comprehension (getitem hid) _) as [embeddings|e] eqn:Ce.
    + apply comprehension_ok in Cs. apply comprehension_ok in Ce.
      pose proof (Forall2_length Cs) as Ls. pose proof (Forall2_length Ce) as Le.
      pose proof (force_first_length use_first args) as Lf.
      split; [exact Cs|]. split; [exact Ce|]. split; [congruence|].
      split; [lia|]. intros ->. rewrite <- Ls. reflexivity.
    + apply comprehension_raises in Ce. destruct Ce as [j [_ Fj]].
      exact (getitem_raises _ _ _ Fj).
  - apply comprehension_raises in Cs. destruct Cs as [j [_ Fj]].
    exact (getitem_raises _ _ _ Fj).
Qed.

(** X2. On a body with sentences the two entry points report one and the
    same selection: when [cluster_runner] returns, [run] returns its
    sentences joined by single blanks and [run_embeddings] without
    aggregate returns its embeddings, one row per joined sentence, both
    leaving the state in which [cluster_runner] ended. *)
Theorem entry_points_report_one_selection
    (self : t World Vec) body ratio min_length max_length use_first algorithm
    num_sentences w tr sentences w0 sel st :
  sentence_handler self body min_length max_length w = (Ok sentences, w0) ->
  sentences <> [] ->
  cluster_runner self sentences ratio algorithm use_first num_sentences
    (w0, tr ++ [EvSegment]) = (Ok sel, st) ->
  run self body ratio min_length max_length use_first algorithm num_sentences
    (w, tr) = (Ok (join " " (fst sel)), st) /\
  run_embeddings self body ratio min_length max_length use_first algorithm
    num_sentences None (w, tr) = (Ok (Embeddings (snd sel)), st) /\
  List.length (fst sel) = List.length (snd sel).
Proof.
  intros Hseg Hne Hrun. split; [|split].
  - rewrite (run_eq self body ratio min_length max_length use_first algorithm
               num_sentences w tr sentences w0 (Ok sel) st Hseg Hne Hrun).
    reflexivity.
  - unfold ModelProcessor.run_embeddings, retrieve_summarized_embeddings, bind, call.
    rewrite Hseg. destruct sentences as [|s0 rest]; [contradiction|].
    change (truthy (s0 :: rest)) with true. cbv beta iota.
    rewrite Hrun. reflexivity.
  - unfold ModelProcessor.cluster_runner, bind, call, lift, ret in Hrun.
    destruct (model self sentences (hidden self) (reduce_option self) w0)
      as [[hid|e] w1]; [|discriminate].
    destruct (cluster hid algorithm (random_state self) ratio _ w1)
      as [[args|e] w2]; [|discriminate].
    destruct (comprehension (getitem sentences) _) as [ss|e] eqn:Cs; [|discriminate].
    destruct (comprehension (getitem hid) _) as [es|e] eqn:Ce; [|discriminate].
    inversion Hrun; subst. simpl.
    apply comprehension_ok, Forall2_length in Cs.
    apply comprehension_ok, Forall2_length in Ce. congruence.
Qed.

(** X3. When the sentence handler raises, [run] and [run_embeddings] raise
    the same exception and nothing else has run: no embedding, no
    clustering. *)
Theorem handler_error_stops_both_entry_points
    (self : t World Vec) body ratio min_length max_length use_first algorithm
    num_sentences aggregate w tr e w0 :
  sentence_handler self body min_length max_length w = (Raise e, w0) ->
  run self body ratio min_length max_length use_first algorithm num_sentences
    (w, tr) = (Raise e, (w0, tr ++ [EvSegment])) /\
  run_embeddings self body ratio min_length max_length use_first algorithm
    num_sentences aggregate (w, tr) = (Raise e, (w0, tr ++ [EvSegment])).
Proof.
  intros Hseg. split.
  - unfold ModelProcessor.run, bind, call. rewrite Hseg. reflexivity.
  - unfold ModelProcessor.run_embeddings, bind, call. rewrite Hseg. reflexivity.
Qed.

(** X4. When the transformer raises on the sentences of the body, both
    entry points raise the same exception, whatever the aggregate; the
    clustering step is never called and no partial summary is returned. *)
Theorem transformer_error_skips_clustering
    (self : t World Vec) body ratio min_length max_length use_first algorithm
    num_sentences aggregate w tr sentences w0 e w1 :
  sentence_handler self body min_length max_length w = (Ok sentences, w0) ->
  sentences <> [] ->
  model self sentences (hidden self) (reduce_option self) w0 = (Raise e, w1) ->
  run self body ratio min_length max_length use_first algorithm num_sentences
    (w, tr) = (Raise e, (w1, tr ++ [EvSegment; EvEmbed])) /\
  run_embeddings self body ratio min_length max_length use_first algorithm
    num_sentences aggregate (w, tr)
  = (Raise e, (w1, tr ++ [EvSegment; EvEmbed])).
Proof.
  intros Hseg Hne Hm.
  pose proof (cluster_runner_model_raises self sentences ratio algorithm use_first
                num_sentences w0 (tr ++ [EvSegment]) e w1 Hm) as Hrun.
  rewrite <- app_assoc in Hrun. simpl in Hrun. split.
  - rewrite (run_eq self body ratio min_length max_length use_first algorithm
               num_sentences w tr sentences w0 _ _ Hseg Hne Hrun).
    reflexivity.
  - exact (run_embeddings_eq self body ratio min_length max_length use_first
             algorithm num_sentences aggregate w tr sentences w0 e _ Hseg Hne Hrun).
Qed.

(** X5. When the clustering step raises, both entry points raise the same
    exception; an aggregate name that is not allowed goes unnoticed then,
    and no reduction runs. *)
Theorem clustering_error_reaches_the_caller
    (self : t World Vec) body ratio min_length max_length use_first algorithm
    num_sentences aggregate w tr sentences w0 hid w1 e w2 :
  sentence_handler self body min_length max_length w = (Ok sentences, w0) ->
  sentences <> [] ->
  model self sentences (hidden self) (reduce_option self) w0 = (Ok hid, w1) ->
  cluster hid algorithm (random_state self) ratio num_sentences w1 = (Raise e, w2) ->
  run self body ratio min_length max_length use_first algorithm num_sentences
    (w, tr) = (Raise e, (w2, tr ++ [EvSegment; EvEmbed; EvCluster])) /\
  run_embeddings self body ratio min_length max_length use_first algorithm
    num_sentences aggregate (w, tr)
  = (Raise e, (w2, tr ++ [EvSegment; EvEmbed; EvCluster])).
Proof.
  intros Hseg Hne Hm Hc.
  pose proof (cluster_runner_cluster_raises self sentences ratio algorithm
                use_first num_sentences w0 (tr ++ [EvSegment]) hid w1 e w2 Hm Hc)
    as Hrun.
  rewrite <- app_assoc in Hrun. simpl in Hrun. split.
  - rewrite (run_eq self body ratio min_length max_length use_first algorithm
               num_sentences w tr sentences w0 _ _ Hseg Hne Hrun).
    reflexivity.
  - exact (run_embeddings_eq self body ratio min_length max_length use_first
             algorithm num_sentences aggregate w tr sentences w0 e _ Hseg Hne Hrun).
Qed.

(** X6. Every aggregate name the assertion lets through is a key of
    [aggregate_map], so the lookup of line 187 never raises [KeyError]:
    [run_embeddings] applies the numpy function of that name (mean
    [np.mean], min [np.min], median [np.median], max [np.max]) to the
    selected embeddings and returns what it returns, or raises what it
    raises. *)
Theorem allowed_aggregate_is_applied
    (self : t World Vec) body ratio min_length max_length use_first algorithm
    num_sentences name w tr sentences w0 sel st :
  In name aggregate_names ->
  sentence_handler self body min_length max_length w = (Ok sentences, w0) ->
  sentences <> [] ->
  cluster_runner self sentences ratio algorithm use_first num_sentences
    (w0, tr ++ [EvSegment]) = (Ok sel, st) ->
  exists reduce,
    dict_get (aggregate_map np_mean np_min np_median np_max) name = Ok reduce /\
    run_embeddings self body ratio min_length max_length use_first algorithm
      num_sentences (Some name) (w, tr)
    = (match reduce (snd sel) with
       | Ok reduced => Ok (Aggregated reduced)
       | Raise e => Raise e
       end,
       (fst st, snd st ++ [EvAggregate])) /\
    (name = "mean" -> reduce = np_mean) /\
    (name = "min" -> reduce = np_min) /\
    (name = "median" -> reduce = np_median) /\
    (name = "max" -> reduce = np_max).
Proof.
  intros Hname Hseg Hne Hrun.
  assert (Hred : exists reduce,
             dict_get (aggregate_map np_mean np_min np_median np_max) name
             = Ok reduce /\
             (name = "mean" -> reduce = np_mean) /\
             (name = "min" -> reduce = np_min) /\
             (name = "median" -> reduce = np_median) /\
             (name = "max" -> reduce = np_max)).
  { simpl in Hname.
    destruct Hname as [<-|[<-|[<-|[<-|[]]]]]; eexists;
      (split; [reflexivity|]); repeat split; intros; try reflexivity;
      discriminate. }
  destruct Hred as [reduce [Hget Hwhich]].
  exists reduce. split; [exact Hget|]. split; [|exact Hwhich].
  unfold ModelProcessor.run_embeddings, retrieve_summarized_embeddings, bind, call.
  rewrite Hseg. destruct sentences as [|s0 rest]; [contradiction|].
  change (truthy (s0 :: rest)) with true. cbv beta iota.
  rewrite Hrun. unfold ret, lift.
  apply contains_true in Hname. rewrite Hname, Hget.
  destruct st as [w' tr']. cbn [fst snd].
  destruct (reduce (snd sel)); reflexivity.
Qed.

(** X7. With [use_first], whatever the clustering step answers, the text
    [run] returns begins with the first sentence of the body. *)
Theorem summary_begins_with_first_sentence
    (self : t World Vec) body ratio min_length max_length algorithm
    num_sentences w tr first rest w0 text st :
  sentence_handler self body min_length max_length w = (Ok (first :: rest), w0) ->
  run self body ratio min_length max_length true algorithm num_sentences (w, tr)
  = (Ok text, st) ->
  String.prefix first text = true.
Proof.
  intros Hseg Hrun.
  destruct (cluster_runner self (first :: rest) ratio algorithm true num_sentences
              (w0, tr ++ [EvSegment])) as [r st'] eqn:Hcr.
  rewrite (run_eq self body ratio min_length max_length true algorithm
             num_sentences w tr (first :: rest) w0 r st' Hseg
             ltac:(discriminate) Hcr) in Hrun.
  destruct r as [sel|e]; [|discriminate].
  inversion Hrun; subst. clear Hrun.
  unfold ModelProcessor.cluster_runner, bind, call, lift, ret in Hcr.
  destruct (model self (first :: rest) (hidden self) (reduce_option self) w0)
    as [[hid|e] w1]; [|discriminate].
  destruct (cluster hid algorithm (random_state self) ratio _ w1)
    as [[args|e] w2]; [|discriminate].
  destruct (force_first_head args) as [others Hsel]. rewrite Hsel in Hcr.
  destruct (comprehension (getitem (first :: rest)) (0 :: others))
    as [ss|e] eqn:Cs; [|discriminate].
  destruct (comprehension (getitem hid) (0 :: others)) as [es|e]; [|discriminate].
  inversion Hcr; subst. simpl fst.
  apply comprehension_ok in Cs.
  inversion Cs as [|? s0 ? ss' Hs0 _]; subst.
  unfold getitem in Hs0. simpl in Hs0. inversion Hs0; subst.
  apply prefix_join.
Qed.

End Facade.

(** Witness of X1: three sentences, the clustering step answers [[1]]. *)
Lemma selection_is_paired_and_counted_witness :
  exists sentences embeddings,
    fst (Reference.cluster_runner [1] Reference.abc true)
    = Ok (sentences, embeddings) /\
    List.length sentences = List.length embeddings.
Proof.
  pose proof (selection_is_paired_and_counted
                (Reference.answers [1]) Reference.processor Reference.abc
                (1 # 5)%Q "kmeans" true None tt [] [1; 1; 1] tt [1] tt
                eq_refl eq_refl) as H.
  unfold Reference.cluster_runner.
  destruct (fst (cluster_runner (Reference.answers [1]) Reference.processor
                   Reference.abc (1 # 5)%Q "kmeans" true None (tt, [])))
    as [[sentences embeddings]|e] eqn:E.
  - exists sentences, embeddings. split; [reflexivity | apply H].
  - vm_compute in E. discriminate.
Defined.

(** Witness of X2: the body of two sentences, the clustering step answers
    [[1]]. *)
Lemma entry_points_report_one_selection_witness :
  EntryReference.run (Reference.answers [1]) Reference.processor
    Reference.two_sentences
  = (Ok (join " " [EntryReference.sentence_one; EntryReference.sentence_two]),
     (tt, [EvSegment; EvEmbed; EvCluster])) /\
  EntryReference.run_embeddings (Reference.answers [1]) Reference.processor
    Reference.two_sentences None
  = (Ok (Embeddings [52; 43]), (tt, [EvSegment; EvEmbed; EvCluster])).
Proof.
  destruct (entry_points_report_one_selection
              (Reference.answers [1]) Reference.total Reference.smallest
              Reference.total Reference.largest Reference.processor
              Reference.two_sentences (1 # 5)%Q 10 100 true "kmeans" None tt []
              [EntryReference.sentence_one; EntryReference.sentence_two] tt
              ([EntryReference.sentence_one; EntryReference.sentence_two], [52; 43])
              (tt, [EvSegment; EvEmbed; EvCluster])
              eq_refl ltac:(discriminate) eq_refl) as [Hrun [Hemb _]].
  split; [exact Hrun | exact Hemb].
Defined.

(** Witness of X3: a sentence handler that raises. *)
Lemma handler_error_stops_both_entry_points_witness :
  EntryReference.run (Reference.answers [1]) EntryReference.deaf_processor
    Reference.two_sentences
  = (Raise (External "sentence handler"), (tt, [EvSegment])) /\
  EntryReference.run_embeddings (Reference.answers [1])
    EntryReference.deaf_processor Reference.two_sentences (Some "mean")
  = (Raise (External "sentence handler"), (tt, [EvSegment])).
Proof.
  exact (handler_error_stops_both_entry_points
           (Reference.answers [1]) Reference.total Reference.smallest
           Reference.total Reference.largest EntryReference.deaf_processor
           Reference.two_sentences (1 # 5)%Q 10 100 true "kmeans" None
           (Some "mean") tt [] (External "sentence handler") tt eq_refl).
Defined.

(** Witness of X4: a transformer that raises; the aggregate name is not
    even an allowed one. *)
Lemma transformer_error_skips_clustering_witness :
  EntryReference.run (Reference.answers [1]) EntryReference.blind_processor
    Reference.two_sentences
  = (Raise (External "sequence too long"), (tt, [EvSegment; EvEmbed])) /\
  EntryReference.run_embeddings (Reference.answers [1])
    EntryReference.blind_processor Reference.two_sentences (Some "sum")
  = (Raise (External "sequence too long"), (tt, [EvSegment; EvEmbed])).
Proof.
  exact (transformer_error_skips_clustering
           (Reference.answers [1]) Reference.total Reference.smallest
           Reference.total Reference.largest EntryReference.blind_processor
           Reference.two_sentences (1 # 5)%Q 10 100 true "kmeans" None
           (Some "sum") tt []
           [EntryReference.sentence_one; EntryReference.sentence_two] tt
           (External "sequence too long") tt
           eq_refl ltac:(discriminate) eq_refl).
Defined.

(** Witness of X5: a clustering step that raises. *)
Lemma clustering_error_reaches_the_caller_witness :
  EntryReference.run EntryReference.broken_cluster Reference.processor
    Reference.two_sentences
  = (Raise (External "clustering"), (tt, [EvSegment; EvEmbed; EvCluster])) /\
  EntryReference.run_embeddings EntryReference.broken_cluster
    Reference.processor Reference.two_sentences (Some "sum")
  = (Raise (External "clustering"), (tt, [EvSegment; EvEmbed; EvCluster])).
Proof.
  exact (clustering_error_reaches_the_caller
           EntryReference.broken_cluster Reference.total Reference.smallest
           Reference.total Reference.largest Reference.processor
           Reference.two_sentences (1 # 5)%Q 10 100 true "kmeans" None
           (Some "sum") tt []
           [EntryReference.sentence_one; EntryReference.sentence_two] tt
           [52; 43] tt (External "clustering") tt
           eq_refl ltac:(discriminate) eq_refl eq_refl).
Defined.

(** Witness of X6: the aggregate "max" on the two selected rows; and what
    the same aggregate does when [use_first] is off and the clustering step
    answers no index. *)
Lemma allowed_aggregate_is_applied_witness :
  EntryReference.run_embeddings (Reference.answers [1]) Reference.processor
    Reference.two_sentences (Some "max")
  = (Ok (Aggregated 52), (tt, [EvSegment; EvEmbed; EvCluster; EvAggregate])).
Proof.
  destruct (allowed_aggregate_is_applied
              (Reference.answers [1]) Reference.total Reference.smallest
              Reference.total Reference.largest Reference.processor
              Reference.two_sentences (1 # 5)%Q 10 100 true "kmeans" None "max"
              tt []
              [EntryReference.sentence_one; EntryReference.sentence_two] tt
              ([EntryReference.sentence_one; EntryReference.sentence_two], [52; 43])
              (tt, [EvSegment; EvEmbed; EvCluster])
              ltac:(simpl; tauto) eq_refl ltac:(discriminate) eq_refl)
    as [reduce [_ [Hrun [_ [_ [_ Hmax]]]]]].
  rewrite (Hmax eq_refl) in Hrun. exact Hrun.
Defined.

Lemma maximum_of_an_empty_selection_raises :
  ModelProcessor.run_embeddings (Reference.answers []) Reference.total
    Reference.smallest Reference.total Reference.largest Reference.processor
    Reference.two_sentences (1 # 5)%Q 10 100 false "kmeans" None (Some "max")
    (tt, [])
  = (Raise ValueError, (tt, [EvSegment; EvEmbed; EvCluster; EvAggregate])).
Proof. reflexivity. Qed.

(** Witness of X7: the clustering step answers the second sentence
    alone. *)
Lemma summary_begins_with_first_sentence_witness :
  String.prefix EntryReference.sentence_one
    (join " " [EntryReference.sentence_one; EntryReference.sentence_two]) = true.
Proof.
  exact (summary_begins_with_first_sentence
           (Reference.answers [1]) Reference.processor Reference.two_sentences
           (1 # 5)%Q 10 100 "kmeans" None tt []
           EntryReference.sentence_one [EntryReference.sentence_two] tt
           (join " " [EntryReference.sentence_one; EntryReference.sentence_two])
           (tt, [EvSegment; EvEmbed; EvCluster]) eq_refl eq_refl).
Defined.

End FacadeFacts.

(* ================================================================== *)
(** ** Facts about the constructors and [bert] *)
(* ================================================================== *)

Module EntryFacts.

Import ModelProcessor Entry PyFacts DictFacts.

Lemma append_empty (s : string) : String.append s EmptyString = s.
Proof.
  induction s as [|c s IH]; simpl; [reflexivity|]. rewrite IH. reflexivity.
Qed.

Lemma concat_empty_cons (x : string) (l : list string) :
  String.concat EmptyString (x :: l)
  = String.append x (String.concat EmptyString l).
Proof.
  destruct l as [|y l]; simpl; [rewrite append_empty|]; reflexivity.
Qed.

Lemma join_characters (s : string) : join EmptyString (characters s) = s.
Proof.
  unfold join. induction s as [|c s IH]; [reflexivity|].
  cbn [characters]. rewrite concat_empty_cons, IH. reflexivity.
Qed.

Lemma dict_get_absent {V} (d : dict V) (k : string) :
  ~ In k (keys d) -> dict_get d k = Raise (KeyError k).
Proof.
  induction d as [|[k' v'] d IH]; simpl; [reflexivity|].
  intros Hn. destruct (String.eqb k k') eqn:E.
  - apply String.eqb_eq in E. subst. tauto.
  - apply IH. tauto.
Qed.

Lemma dict_set_get_same {V} (d : dict V) (k : string) (v : V) :
  dict_get d k = Ok v -> dict_set d k v = d.
Proof.
  induction d as [|[k' v'] d IH]; simpl; [discriminate|].
  destruct (String.eqb k k') eqn:E.
  - intros H; inversion H; subst. reflexivity.
  - intros H. rewrite IH by exact H. reflexivity.
Qed.

Lemma register_idempotent (defined : string -> bool) (d : dict (string * string)) :
  register defined (register defined d) = register defined d.
Proof.
  unfold register.
  destruct (defined "RobertaModel" && defined "RobertaTokenizer"); [|reflexivity].
  destruct (defined "AlbertModel" && defined "AlbertTokenizer").
  - destruct (defined "CamembertModel" && defined "CamembertTokenizer").
    + set (d3 := dict_set (dict_set (dict_set d "Roberta" _) "Albert" _)
                          "Camembert" _).
      assert (H1 : dict_set d3 "Roberta" ("RobertaModel", "RobertaTokenizer") = d3).
      { apply dict_set_get_same. unfold d3.
        rewrite !dict_get_set_other by discriminate. apply dict_get_set_same. }
      rewrite H1.
      assert (H2 : dict_set d3 "Albert" ("AlbertModel", "AlbertTokenizer") = d3).
      { apply dict_set_get_same. unfold d3.
        rewrite dict_get_set_other by discriminate. apply dict_get_set_same. }
      rewrite H2. apply dict_set_get_same. apply dict_get_set_same.
    + set (d2 := dict_set (dict_set d "Roberta" _) "Albert" _).
      assert (H1 : dict_set d2 "Roberta" ("RobertaModel", "RobertaTokenizer") = d2).
      { apply dict_set_get_same. unfold d2.
        rewrite dict_get_set_other by discriminate. apply dict_get_set_same. }
      rewrite H1. apply dict_set_get_same. apply dict_get_set_same.
  - apply dict_set_get_same. apply dict_get_set_same.
Qed.

Section Entry.

Context {World Vec Pretrained : Type}.
Variable cluster :
  list Vec -> string -> Z -> Q -> option Z -> World -> result (list Z) * World.
Variable np_random_seed : Z -> World -> World.
Variable BertParent :
  option string -> option Pretrained -> option Pretrained ->
  World -> result (Embedder World Vec) * World.
Variable model_from_pretrained :
  string -> string -> bool -> World -> result Pretrained * World.
Variable tokenizer_from_pretrained :
  string -> string -> World -> result Pretrained * World.
Variable defined : string -> bool.
Variable default_sentence_handler : Handler World.

(** X8. [bert] seeds numpy with 12345, builds the transformer wrapper for
    'bert-large-uncased' and returns exactly what [run] returns for the
    body with ratio 0.2, minimum length 40, maximum length 600,
    [use_first], k-means and [num_sentences = length]: joining the
    characters of that text with the empty separator changes nothing. When
    the wrapper cannot be built its exception is raised and the body is
    not looked at. *)
Theorem bert_is_run_with_the_defaults (body : string) (length : Z)
    (w : World) (tr : list event) :
  bert cluster np_random_seed BertParent default_sentence_handler body length
       (w, tr)
  = match BertParent (Some "bert-large-uncased") None None
            (np_random_seed 12345 w) with
    | (Ok parent, w1) =>
        run cluster (Build parent (-2) "mean" default_sentence_handler 12345)
            body (1 # 5)%Q 40 600 true "kmeans" (Some length) (w1, tr)
    | (Raise e, w1) => (Raise e, (w1, tr))
    end.
Proof.
  unfold bert, Summarizer_init, ModelProcessor_init, call_, bind, modify,
    on_world, ret.
  cbn [fst snd].
  destruct (BertParent (Some "bert-large-uncased") None None
              (np_random_seed 12345 w)) as [[parent|e] w1]; [|reflexivity].
  destruct (run cluster _ body (1 # 5)%Q 40 600 true "kmeans" (Some length)
              (w1, tr)) as [[text|e] st]; [|reflexivity].
  rewrite join_characters. reflexivity.
Qed.

(** X9. A transformer type that is not a key of [MODEL_DICT] after the
    registration makes the constructor raise [KeyError] for that type:
    no model and no tokenizer is loaded, numpy is not seeded, and the
    registration stays in the dictionary of the class. *)
Theorem unknown_transformer_type_loads_nothing
    (transformer_type transformer_model_key : string)
    (transformer_tokenizer_key : option string) (hidden : Z)
    (reduce_option : string) (sentence_handler : Handler World)
    (random_state : Z) (d : dict (string * string)) (st : state World) :
  ~ In transformer_type (keys (register defined d)) ->
  TransformerSummarizer_init np_random_seed BertParent model_from_pretrained
    tokenizer_from_pretrained defined transformer_type transformer_model_key
    transformer_tokenizer_key hidden reduce_option sentence_handler random_state
    (d, st)
  = (Raise (KeyError transformer_type), (register defined d, st)).
Proof.
  intros Habsent.
  unfold TransformerSummarizer_init, bind, modify. cbn [fst snd].
  rewrite (dict_get_absent _ _ Habsent). reflexivity.
Qed.

(** X11. Whatever the constructor does afterwards, also when it raises, it
    leaves the registered dictionary in the class; registering again
    changes nothing, so a second construction finds and keeps the same
    dictionary. *)
Theorem registration_is_kept
    (transformer_type transformer_model_key : string)
    (transformer_tokenizer_key : option string) (hidden : Z)
    (reduce_option : string) (sentence_handler : Handler World)
    (random_state : Z) (d : dict (string * string)) (st : state World) :
  fst (snd (TransformerSummarizer_init np_random_seed BertParent
              model_from_pretrained tokenizer_from_pretrained defined
              transformer_type transformer_model_key transformer_tokenizer_key
              hidden reduce_option sentence_handler random_state (d, st)))
  = register defined d /\
  register defined (register defined d) = register defined d.
Proof.
  split; [|apply register_idempotent].
  unfold TransformerSummarizer_init, ModelProcessor_init, bind, modify, in_run,
    on_world, ret.
  cbn [fst snd].
  destruct (dict_get (register defined d) transformer_type) as [[mclz tclz]|e];
    [|reflexivity].
  cbn [fst snd].
  destruct (model_from_pretrained mclz transformer_model_key true (fst st))
    as [[m|e] w1]; [|reflexivity].
  cbn [fst snd].
  destruct (tokenizer_from_pretrained tclz _ w1) as [[t|e] w2]; [|reflexivity].
  cbn [fst snd].
  destruct (BertParent None (Some m) (Some t) (np_random_seed random_state w2))
    as [[parent|e] w3]; reflexivity.
Qed.

End Entry.

(** X10. Of Roberta, Albert and Camembert the class knows a type only when
    its two classes and those of the types before it in the [try] block
    are all defined: Albert is missing when a Roberta class is missing,
    even if both Albert classes exist. The eight types of the class
    statement keep their classes. *)
Theorem registration_stops_at_the_first_missing_class (defined : string -> bool) :
  let d := register defined MODEL_DICT in
  let roberta := defined "RobertaModel" && defined "RobertaTokenizer" in
  let albert := defined "AlbertModel" && defined "AlbertTokenizer" in
  let camembert := defined "CamembertModel" && defined "CamembertTokenizer" in
  dict_mem d "Roberta" = roberta /\
  dict_mem d "Albert" = roberta && albert /\
  dict_mem d "Camembert" = roberta && albert && camembert /\
  forall k, In k (keys MODEL_DICT) -> dict_get d k = dict_get MODEL_DICT k.
Proof.
  unfold register.
  destruct (defined "RobertaModel" && defined "RobertaTokenizer");
    destruct (defined "AlbertModel" && defined "AlbertTokenizer");
    destruct (defined "CamembertModel" && defined "CamembertTokenizer");
    cbv zeta; (repeat split; try reflexivity);
    intros k Hk; simpl in Hk;
    repeat (destruct Hk as [<-|Hk]; [reflexivity|]); contradiction.
Qed.

(** Witness of X9: no class beyond the eight is defined and the type is
    Roberta. *)
Lemma unknown_transformer_type_loads_nothing_witness :
  EntryReference.TransformerSummarizer_init EntryReference.nothing_defined
    "Roberta"
  = (Raise (KeyError "Roberta"), (MODEL_DICT, (tt, []))).
Proof.
  apply (unknown_transformer_type_loads_nothing
           EntryReference.seed EntryReference.parent EntryReference.load_model
           EntryReference.load_tokenizer EntryReference.nothing_defined
           "Roberta" "bert-base-uncased" None (-2) "mean" Reference.handler
           12345 MODEL_DICT (tt, [])).
  vm_compute. intuition discriminate.
Defined.

End EntryFacts.

(* ================================================================== *)
(** ** More about the summarizer *)
(* ================================================================== *)

Module SummaryFacts.

Import Summarize PyFacts DictFacts SummarizeFacts.

(** *** [sort_sentences] on any two lists *)

Lemma sorted_le (l : list nat) :
  StronglySorted (fun x y => is_true (NatOrder.leb x y)) l -> StronglySorted le l.
Proof.
  induction 1 as [|a l _ IH Hall]; constructor; [exact IH|].
  eapply Forall_impl; [|exact Hall]. intros x Hx. apply leb_le. exact Hx.
Qed.

Lemma sort_sorted (ps : list nat) : StronglySorted le (NatSort.sort ps).
Proof.
  apply sorted_le, NatSort.StronglySorted_sort.
  intros x y z Hxy Hyz. apply leb_le in Hxy. apply leb_le in Hyz.
  apply leb_le. lia.
Qed.

Lemma sorted_permutation_eq (l : list nat) :
  forall l', StronglySorted le l -> StronglySorted le l' ->
             Permutation l l' -> l = l'.
Proof.
  induction l as [|a l IH]; intros l' Hs Hs' Hp.
  - apply Permutation_nil in Hp. congruence.
  - destruct l' as [|b l'].
    + apply Permutation_sym, Permutation_nil in Hp. discriminate.
    + inversion Hs as [|? ? Hsl Hal]; subst.
      inversion Hs' as [|? ? Hsl' Hbl']; subst.
      rewrite Forall_forall in Hal, Hbl'.
      assert (Hab : a = b).
      { assert (Hb : In b (a :: l))
          by (apply (Permutation_in _ (Permutation_sym Hp)); left; reflexivity).
        assert (Ha : In a (b :: l'))
          by (apply (Permutation_in _ Hp); left; reflexivity).
        destruct Hb as [Hb|Hb]; [congruence|].
        destruct Ha as [Ha|Ha]; [congruence|].
        specialize (Hal b Hb). specialize (Hbl' a Ha). lia. }
      subst b. f_equal. apply IH; [assumption | assumption |].
      eapply Permutation_cons_inv. exact Hp.
Qed.

Lemma sort_of_sorted (ps : list nat) : StronglySorted le ps -> NatSort.sort ps = ps.
Proof.
  intros Hs. symmetry.
  apply sorted_permutation_eq; [exact Hs | apply sort_sorted |].
  apply NatSort.Permuted_sort.
Qed.

Lemma positions_general (original : list string) :
  forall output,
    exists ps,
      positions original output = Ok ps /\
      Forall2 (fun o p => list_index original o = Ok p)
              (filter (contains original) output) ps.
Proof.
  induction output as [|o output [ps [Hps HF]]]; simpl.
  - exists []. split; [reflexivity | constructor].
  - destruct (contains original o) eqn:C.
    + apply contains_true in C.
      destruct (list_index_in original o C) as [i Hi].
      rewrite Hi, Hps. exists (i :: ps).
      split; [reflexivity | constructor; assumption].
    + exists ps. split; assumption.
Qed.

Lemma located_map (original : list string) (kept : list string) (ps : list nat) :
  Forall2 (fun o p => list_index original o = Ok p) kept ps ->
  kept = map (fun p => nth p original EmptyString) ps.
Proof.
  induction 1 as [|o p kept ps Ho _ IH]; simpl; [reflexivity|].
  rewrite <- IH. f_equal. apply list_index_nth in Ho.
  symmetry. apply nth_error_nth. exact Ho.
Qed.

Lemma fetched_map (original : list string) (ps : list nat) (summary : list string) :
  Forall2 (fun p s => getitem original (Z.of_nat p) = Ok s) ps summary ->
  summary = map (fun p => nth p original EmptyString) ps.
Proof.
  induction 1 as [|p s ps summary Hp _ IH]; simpl; [reflexivity|].
  rewrite <- IH. f_equal. rewrite getitem_nat in Hp.
  destruct (nth_error original p) as [x|] eqn:N; [|discriminate].
  inversion Hp; subst. symmetry. apply nth_error_nth. exact N.
Qed.

Lemma sort_sentences_general (original output : list string) (out : list printed) :
  exists summary ps,
    sort_sentences original output out = (Ok summary, out ++ [PrintList ps]) /\
    Permutation (filter (contains original) output) summary /\
    StronglySorted le ps /\
    Forall2 (fun s p => list_index original s = Ok p) summary ps.
Proof.
  destruct (positions_general original output) as [ps0 [Hps HF0]].
  pose proof (NatSort.Permuted_sort ps0) as Hperm.
  pose proof (sort_sorted ps0) as Hsorted.
  remember (NatSort.sort ps0) as ps eqn:Eps.
  assert (Hall : Forall (fun p => exists s, getitem original (Z.of_nat p) = Ok s /\
                                           list_index original s = Ok p) ps).
  { apply Forall_forall. intros p Hp.
    apply (Permutation_in _ (Permutation_sym Hperm)) in Hp.
    destruct (Forall2_in_r _ _ _ _ HF0 Hp) as [o [_ Ho]].
    exists o. split; [|exact Ho].
    rewrite getitem_nat, (list_index_nth _ _ _ Ho). reflexivity. }
  destruct (comprehension_total (fun i => getitem original (Z.of_nat i)) ps)
    as [summary [Hsum HF]].
  { eapply Forall_impl; [|exact Hall]. simpl. intros p [s [Hs _]]. eauto. }
  exists summary, ps. split; [|split; [|split]].
  - unfold sort_sentences, bind, lift, print, modify, ret.
    rewrite Hps, <- Eps, Hsum. reflexivity.
  - rewrite (located_map _ _ _ HF0), (fetched_map _ _ _ HF).
    apply Permutation_map. exact Hperm.
  - exact Hsorted.
  - apply located_flip; assumption.
Qed.

(** X12. [sort_sentences] never raises, whatever the two lists. It
    returns the entries of [output] that occur in [original], each as often
    as [output] has it, rearranged so that their first positions in
    [original] do not descend; entries that do not occur in [original] are
    dropped. The position list is what it prints. *)
Theorem sort_sentences_rearranges_what_is_known
    (original output : list string) (out : list printed) :
  exists summary ps,
    sort_sentences original output out = (Ok summary, out ++ [PrintList ps]) /\
    Permutation (filter (contains original) output) summary /\
    Forall (fun s => In s original /\ In s output) summary /\
    StronglySorted le ps /\
    Forall2 (fun s p => list_index original s = Ok p) summary ps.
Proof.
  destruct (sort_sentences_general original output out)
    as [summary [ps [Hrun [Hperm [Hsorted HF]]]]].
  exists summary, ps.
  split; [exact Hrun|]. split; [exact Hperm|].
  split; [|split; assumption].
  apply Forall_forall. intros s Hs.
  apply (Permutation_in _ (Permutation_sym Hperm)) in Hs.
  apply filter_In in Hs. destruct Hs as [Hout Hc].
  apply contains_true in Hc. split; assumption.
Qed.

(** X13. Sorting twice is sorting once: [sort_sentences] applied to its
    own result returns that result and prints the same position list. *)
Theorem sort_sentences_is_idempotent
    (original output : list string) (out out' : list printed) :
  exists summary ps,
    sort_sentences original output out = (Ok summary, out ++ [PrintList ps]) /\
    sort_sentences original summary out' = (Ok summary, out' ++ [PrintList ps]).
Proof.
  destruct (sort_sentences_general original output out)
    as [summary [ps [Hrun [_ [Hsorted HF]]]]].
  exists summary, ps. split; [exact Hrun|].
  destruct (sort_sentences_general original summary out')
    as [summary' [ps' [Hrun' [_ [_ HF']]]]].
  rewrite Hrun'.
  unfold sort_sentences, bind, lift, print, modify, ret in Hrun'.
  destruct (positions_general original summary) as [ps0 [Hps HF0]].
  rewrite Hps in Hrun'.
  assert (Hkept : filter (contains original) summary = summary).
  { apply forallb_filter_id. apply forallb_forall. intros s Hs.
    destruct (Forall2_in_r _ _ _ _ (Forall2_swap _ _ _ HF) Hs) as [p [_ Hp]].
    simpl in Hp. apply contains_true. apply list_index_nth in Hp.
    eapply nth_error_In. exact Hp. }
  rewrite Hkept in HF0.
  assert (E0 : ps0 = ps).
  { clear - HF HF0. revert ps0 HF0.
    induction HF as [|s p ss ps Hs _ IH]; intros ps0 HF0;
      inversion HF0; subst; [reflexivity|].
    f_equal; [congruence | apply IH; assumption]. }
  subst ps0. rewrite (sort_of_sorted ps Hsorted) in Hrun'.
  destruct (comprehension (fun i => getitem original (Z.of_nat i)) ps)
    as [fetched|e] eqn:C; [|discriminate].
  inversion Hrun'; subst. clear Hrun'.
  apply comprehension_ok in C.
  assert (E : summary' = summary).
  { rewrite (fetched_map _ _ _ C).
    apply Forall2_swap in HF. simpl in HF.
    clear - HF. induction HF as [|p s ps ss Hp _ IH]; simpl; [reflexivity|].
    rewrite <- IH. f_equal. apply list_index_nth in Hp.
    apply nth_error_nth. exact Hp. }
  rewrite E. reflexivity.
Qed.

(** *** The selection loop, first round *)

Lemma select_loop_extends sentences max_sentences :
  forall rounds tracker output output',
    select_loop rounds sentences max_sentences tracker output = Ok output' ->
    exists extra, output' = output ++ extra.
Proof.
  induction rounds as [|rounds IH]; intros tracker output output' H.
  - simpl in H. inversion H; subst. exists []. rewrite app_nil_r. reflexivity.
  - rewrite select_loop_step in H.
    destruct (max_enumerate tracker) as [[i x]|e]; [|discriminate].
    simpl and_then in H. cbn [fst] in H.
    assert (Hpick : forall output1,
              (if len output + 1 <=? max_sentences
               then s <~ getitem sentences (Z.of_nat i) ;;
                    Ok (if negb (contains output s) then output ++ [s] else output)
               else Ok output) = Ok output1 ->
              exists added, output1 = output ++ added).
    { intros output1. destruct (len output + 1 <=? max_sentences).
      - destruct (getitem sentences (Z.of_nat i)) as [s|e]; [|discriminate].
        simpl and_then. destruct (contains output s); simpl negb; cbv iota;
          intros E; inversion E; subst.
        + exists []. rewrite app_nil_r. reflexivity.
        + exists [s]. reflexivity.
      - intros E; inversion E; subst. exists []. rewrite app_nil_r. reflexivity. }
    destruct (if len output + 1 <=? max_sentences
              then s <~ getitem sentences (Z.of_nat i) ;;
                   Ok (if negb (contains output s) then output ++ [s] else output)
              else Ok output) as [output1|e] eqn:P; [|discriminate].
    destruct (Hpick output1 eq_refl) as [added ->].
    simpl and_then in H.
    destruct (len (output ++ added) >? max_sentences).
    + inversion H; subst. exists added. reflexivity.
    + destruct (getitem tracker (Z.of_nat i)) as [y|e]; [|discriminate].
      simpl and_then in H.
      destruct (list_remove y tracker) as [tracker'|e]; [|discriminate].
      simpl and_then in H.
      destruct (IH _ _ _ H) as [extra ->].
      exists (added ++ extra). rewrite app_assoc. reflexivity.
Qed.

Lemma first_round_takes_the_maximum sentences max_sentences tracker i v s output' :
  1 <= max_sentences ->
  max_enumerate tracker = Ok (i, v) ->
  nth_error sentences i = Some s ->
  select_loop (S (Nat.pred (List.length tracker))) sentences max_sentences
              tracker [] = Ok output' ->
  exists extra, output' = s :: extra.
Proof.
  intros Hmax Hi Hs H.
  rewrite select_loop_step, Hi in H. simpl and_then in H. cbn [fst] in H.
  assert (C : (1 <=? max_sentences) = true) by (apply Z.leb_le; lia).
  rewrite C, getitem_nat, Hs in H. simpl and_then in H.
  assert (C' : (len [s] >? max_sentences) = false).
  { unfold len. simpl List.length. rewrite Z.gtb_ltb. apply Z.ltb_ge. lia. }
  rewrite C' in H.
  destruct (getitem tracker (Z.of_nat i)) as [y|e]; [|discriminate].
  simpl and_then in H.
  destruct (list_remove y tracker) as [tracker'|e]; [|discriminate].
  simpl and_then in H.
  destruct (select_loop_extends _ _ _ _ _ _ H) as [extra ->].
  exists extra. reflexivity.
Qed.

(** Whatever the scores: one score per sentence at most, at least one
    score, at least one sentence asked for. *)
Lemma select_and_sort_not_empty sentences max_sentences tracker out :
  1 <= max_sentences ->
  tracker <> [] ->
  (List.length tracker <= List.length sentences)%nat ->
  exists summary out',
    select_and_sort sentences max_sentences tracker out = (Ok summary, out') /\
    summary <> [] /\
    (max_sentences = 1 -> exists s, summary = [s] /\ In s sentences).
Proof.
  intros Hmax Htne Hlen.
  destruct (max_enumerate_spec tracker Htne) as [i [v [Hi Hnth]]].
  assert (Hilt : (i < List.length sentences)%nat).
  { assert (i < List.length tracker)%nat by (apply nth_error_Some; congruence).
    lia. }
  destruct (nth_error sentences i) as [s|] eqn:Hs;
    [|apply nth_error_None in Hs; lia].
  destruct (select_loop_total sentences max_sentences
              (List.length tracker) tracker [])
    as [output [Hsel [Hnd [Hincl Hbound]]]]; [reflexivity | lia | |].
  { split; [constructor|]. split; [intros x []|]. unfold len. simpl. lia. }
  assert (Hfirst : exists extra, output = s :: extra).
  { apply (first_round_takes_the_maximum sentences max_sentences
             tracker i v s output Hmax Hi Hs).
    replace (S (Nat.pred (List.length tracker))) with (List.length tracker);
      [exact Hsel|].
    destruct tracker; [congruence | reflexivity]. }
  destruct Hfirst as [extra ->].
  destruct (sort_sentences_general sentences (s :: extra) out)
    as [summary [ps [Hsort [Hperm _]]]].
  assert (Hkept : filter (contains sentences) (s :: extra) = s :: extra).
  { apply forallb_filter_id, forallb_forall. intros x Hx.
    apply contains_true. apply Hincl. exact Hx. }
  rewrite Hkept in Hperm.
  exists summary. eexists. split; [|split].
  - unfold select_and_sort, bind, lift. rewrite Hsel. exact Hsort.
  - intros ->. apply Permutation_sym, Permutation_nil in Hperm. discriminate.
  - intros ->. assert (extra = []) as ->.
    { destruct extra; [reflexivity|]. unfold len in Hbound. simpl in Hbound. lia. }
    exists s. split.
    + apply Permutation_length_1_inv. exact Hperm.
    + eapply nth_error_In. exact Hs.
Qed.

Section Summarizer.

Variable sent_tokenize : string -> list string.
Variable word_tokenize : string -> list string.
Variable stopwords_english : list string.

Local Abbreviation tracker_of :=
  (tracker_of sent_tokenize word_tokenize stopwords_english).
Local Abbreviation get_summary :=
  (get_summary sent_tokenize word_tokenize stopwords_english).

(** X14. For every input and every [max_sentences], [get_summary]
    returns: the sentences it returns are sentences of the input, no two
    of them equal, at most [max_sentences] of them (none when that is
    negative) and at most as many as the input has. It prints the warning
    exactly when [max_sentences] exceeds the number of sentences, and then
    the position list, nothing else. *)
Theorem summary_is_distinct_and_bounded (input : string) (max_sentences : Z)
    (out : list printed) :
  exists summary ps,
    get_summary input max_sentences out
    = (Ok summary,
       (if max_sentences >? len (sent_tokenize input)
        then out ++ [PrintStr warning_message] else out) ++ [PrintList ps]) /\
    NoDup summary /\
    Forall (fun s => In s (sent_tokenize input)) summary /\
    len summary <= Z.max 0 max_sentences /\
    len summary <= len (sent_tokenize input).
Proof.
  destruct (get_summary_returns sent_tokenize word_tokenize stopwords_english
              input max_sentences out)
    as [summary [ps [Hrun [_ [HF [Hnd Hlen]]]]]].
  assert (Hin : Forall (fun s => In s (sent_tokenize input)) summary).
  { clear - HF. induction HF as [|s p ss ps Hs _ IH]; constructor; [|exact IH].
    apply list_index_nth in Hs. eapply nth_error_In. exact Hs. }
  exists summary, ps. repeat split; try assumption.
  unfold len. apply inj_le. apply NoDup_incl_length; [exact Hnd|].
  intros s Hs. rewrite Forall_forall in Hin. auto.
Qed.

(** X15. When [max_sentences] is zero or negative, [get_summary] raises
    nothing and warns of nothing: it returns the empty list and prints the
    empty position list. *)
Theorem no_sentences_asked_none_returned (input : string) (max_sentences : Z)
    (out : list printed) :
  max_sentences <= 0 ->
  get_summary input max_sentences out = (Ok [], out ++ [PrintList []]).
Proof.
  intros Hmax.
  destruct (get_summary_returns sent_tokenize word_tokenize stopwords_english
              input max_sentences out)
    as [summary [ps [Hrun [_ [HF [_ Hlen]]]]]].
  rewrite Hrun.
  assert (summary = []) as ->.
  { destruct summary; [reflexivity|]. unfold len in Hlen. simpl in Hlen. lia. }
  inversion HF; subst.
  assert ((max_sentences >? len (sent_tokenize input)) = false) as ->.
  { rewrite Z.gtb_ltb. apply Z.ltb_ge.
    pose proof (len_nonneg (sent_tokenize input)). lia. }
  reflexivity.
Qed.

(** X16. When at least one sentence is asked for and the input has one,
    the summary is not empty: the first round of the selection appends a
    sentence before any score entry is removed. When exactly one sentence
    is asked for, the summary is one sentence of the input. *)
Theorem summary_is_not_empty (input : string) (max_sentences : Z)
    (out : list printed) :
  1 <= max_sentences ->
  sent_tokenize input <> [] ->
  exists summary out',
    get_summary input max_sentences out = (Ok summary, out') /\
    summary <> [] /\
    (max_sentences = 1 ->
     exists s, summary = [s] /\ In s (sent_tokenize input)).
Proof.
  intros Hmax Hne.
  destruct (tracker_of_total sent_tokenize word_tokenize stopwords_english input)
    as [tracker [Htr Hlen]].
  destruct (select_and_sort_not_empty (sent_tokenize input) max_sentences tracker
              (if max_sentences >? len (sent_tokenize input)
               then out ++ [PrintStr warning_message] else out))
    as [summary [out' [Hrun [Hsome Hone]]]]; [exact Hmax | | lia |].
  { intros ->. destruct (sent_tokenize input); [congruence | discriminate]. }
  exists summary, out'. split; [|split; [exact Hsome | exact Hone]].
  rewrite (get_summary_phases sent_tokenize word_tokenize stopwords_english
             input max_sentences out tracker Htr).
  exact Hrun.
Qed.

End Summarizer.

(** Witness of X15: the three cat sentences, none asked for. *)
Lemma no_sentences_asked_none_returned_witness :
  Reference.get_summary Reference.cats 0 = (Ok [], [PrintList []]).
Proof.
  apply (no_sentences_asked_none_returned Reference.sent_tokenize
           Reference.word_tokenize Reference.stopwords_english Reference.cats 0 []).
  lia.
Defined.

(** Witness of X16: one sentence asked of "The cat sat still. The dog ran.
    The cat slept.". *)
Lemma summary_is_not_empty_witness :
  exists summary out',
    Reference.get_summary Reference.cat_dog_cat 1 = (Ok summary, out') /\
    summary <> [] /\
    (1 = 1 ->
     exists s, summary = [s] /\
               In s (Reference.sent_tokenize Reference.cat_dog_cat)).
Proof.
  apply (summary_is_not_empty Reference.sent_tokenize
           Reference.word_tokenize Reference.stopwords_english
           Reference.cat_dog_cat 1 []).
  - lia.
  - vm_compute. discriminate.
Defined.

End SummaryFacts.
